(** * PeloMon: BLE Cycling Power / Cycling Speed and Cadence GATT encoder

    A shallow embedding of [pelomon/BLECyclingGatt.h] and the properties of
    its three parts: the PROGMEM line comparator, the service catalog
    declared at bring-up, and the measurement encoder of [update].

    The target is an 8-bit AVR (the code reads its tables with
    [pgm_read_word]): [int], [unsigned int], [size_t] and pointers are 16 bits
    wide, [uint32_t] is [unsigned long], and objects are stored little-endian.
    Integers are modelled as [Z] with every wrap-around written out. *)

From Stdlib Require Import ZArith List Bool Lia.
From Stdlib Require String Ascii DecimalString.
Import ListNotations String.StringSyntax.
Delimit Scope string_scope with string.
Local Open Scope Z_scope.

(** * Part I: the program *)

(** ** Fixed-width unsigned integers *)

Module CInt.

Definition wrap8 (x : Z) : Z := x mod 2 ^ 8.
Definition wrap16 (x : Z) : Z := x mod 2 ^ 16.
Definition wrap32 (x : Z) : Z := x mod 2 ^ 32.

Definition uint8 (x : Z) : Prop := 0 <= x < 2 ^ 8.
Definition uint16 (x : Z) : Prop := 0 <= x < 2 ^ 16.
Definition uint32 (x : Z) : Prop := 0 <= x < 2 ^ 32.

End CInt.
Import CInt.

(** ** Object representation: little-endian bytes *)

Module Bytes.

(** The [n] bytes that [memcpy] reads from an [n]-byte unsigned object
    holding [v], lowest address first. *)
Fixpoint to_le (n : nat) (v : Z) : list Z :=
  match n with
  | O => []
  | S k => v mod 256 :: to_le k (v / 256)
  end.

(** The unsigned value a receiver reads back from little-endian bytes. *)
Fixpoint of_le (bs : list Z) : Z :=
  match bs with
  | [] => 0
  | b :: rest => b + 256 * of_le rest
  end.

(** [len] bytes of [bs] starting at offset [off]. *)
Definition slice (off len : nat) (bs : list Z) : list Z :=
  firstn len (skipn off bs).

(** [memcpy(buffer + base, src, n)] on an array [buffer]: the bytes at
    offsets [base .. base + n - 1] are replaced.  Every use below stays
    inside the array. *)
Definition memcpy (buffer : list Z) (base : Z) (src : list Z) : list Z :=
  firstn (Z.to_nat base) buffer ++ src
    ++ skipn (Z.to_nat base + length src) buffer.

(** The macro [APPEND_BUFFER(buffer, base, field)], for a [field] of
    [size] bytes; [base] is a [uint8_t]. *)
Definition APPEND_BUFFER (buffer : list Z) (base : Z) (size : nat) (field : Z)
    : list Z * Z :=
  (memcpy buffer base (to_le size field), wrap8 (base + Z.of_nat size)).

End Bytes.
Import Bytes.

(** ** The PROGMEM line comparator *)

Module Comparator.

(** A C string is modelled by the bytes stored from its first address on;
    reading past the end of the list reads the terminating NUL. *)
Definition cstring := list Z.

(** The characters of a C string: the bytes before its first NUL. *)
Fixpoint chars (s : cstring) : list Z :=
  match s with
  | [] => []
  | c :: rest => if c =? 0 then [] else c :: chars rest
  end.

Definition strlen (s : cstring) : Z := Z.of_nat (length (chars s)).

(** [strnlen_P(s, maxlen)]: the length of [s], but at most [maxlen]. *)
Fixpoint strnlen_upto (s : cstring) (maxlen : nat) {struct maxlen} : nat :=
  match maxlen with
  | O => O
  | S m =>
      match s with
      | [] => O
      | c :: rest => if c =? 0 then O else S (strnlen_upto rest m)
      end
  end.

Definition strnlen_P (s : cstring) (maxlen : Z) : Z :=
  Z.of_nat (strnlen_upto s (Z.to_nat maxlen)).

(** [strncmp_P(s1, s2, n)]: compares at most [n] characters and stops
    after a NUL; zero when no difference was met, otherwise the difference
    of the first two bytes that differ. *)
Fixpoint strncmp_upto (s1 s2 : cstring) (n : nat) : Z :=
  match n with
  | O => 0
  | S m =>
      let c1 := hd 0 s1 in
      let c2 := hd 0 s2 in
      if c1 =? c2
      then if c1 =? 0 then 0 else strncmp_upto (tl s1) (tl s2) m
      else c1 - c2
  end.

Definition strncmp_P (s1 s2 : cstring) (n : Z) : Z :=
  strncmp_upto s1 s2 (Z.to_nat n).

(** [struct ProgmemComparatorState].  [pgm_entry_table] is a pointer to an
    array of string pointers in program memory; it is modelled by the string
    that entry [i] points to, for every index the code may read: the array
    carries no length of its own, [total_lines] is the declared one. *)
Record ProgmemComparatorState := {
  is_equal : bool;
  line_number : Z;                      (* uint8_t *)
  total_lines : Z;                      (* uint8_t *)
  pgm_entry_table : Z -> cstring        (* char** for strings *)
}.

(** [string_comparator_callback].  The two debug blocks only print to the
    serial port and are left out. *)
Definition string_comparator_callback
    (state : ProgmemComparatorState) (linebuf : cstring) (line_len : Z)
    : ProgmemComparatorState :=
  if line_number state >=? total_lines state then state
  else
    let pgm_line_table := pgm_entry_table state in
    let next_pgm_line := pgm_line_table (line_number state) in
    let next_pgm_line_len :=
      wrap16 (strnlen_P next_pgm_line (wrap16 (line_len + 1))) in
    let lines_matched := strncmp_P linebuf next_pgm_line line_len in
    {| is_equal :=
         is_equal state && (line_len =? next_pgm_line_len)
                        && (0 =? lines_matched);
       line_number := wrap8 (line_number state + 1);
       total_lines := total_lines state;
       pgm_entry_table := pgm_entry_table state |}.

(** A supplied line: the buffer and the length handed to the callback. *)
Definition line := (cstring * Z)%type.

(** Modelled from the spec: the line source that drives the comparator is
    not part of this header; it "invokes the ReferenceTableMatcher once per
    line in order, supplying the raw bytes and their length". *)
Fixpoint feed_lines (state : ProgmemComparatorState) (lines : list line)
    : ProgmemComparatorState :=
  match lines with
  | [] => state
  | (linebuf, line_len) :: rest =>
      feed_lines (string_comparator_callback state linebuf line_len) rest
  end.

(** *** What the comparator is measured against *)

Fixpoint bytes_eqb (a b : list Z) : bool :=
  match a, b with
  | [], [] => true
  | x :: a', y :: b' => (x =? y) && bytes_eqb a' b'
  | _, _ => false
  end.

(** The [line_len] bytes supplied in [linebuf]. *)
Definition supplied (linebuf : cstring) (line_len : Z) : list Z :=
  firstn (Z.to_nat line_len) linebuf.

(** Per-line equality: same length and same bytes as the reference line. *)
Definition line_equal (ref : cstring) (l : line) : bool :=
  (snd l =? strlen ref) && bytes_eqb (supplied (fst l) (snd l)) (chars ref).

(** The reference lines that a session of [lines] is compared with: line
    [k] of the session meets entry [index + k], as long as that index is
    below [total]. *)
Fixpoint compared (table : Z -> cstring) (index total : Z) (lines : list line)
    : list (cstring * line) :=
  match lines with
  | [] => []
  | l :: rest =>
      if index >=? total then []
      else (table index, l) :: compared table (index + 1) total rest
  end.

Definition all_equal (pairs : list (cstring * line)) : bool :=
  forallb (fun p => line_equal (fst p) (snd p)) pairs.

(** A table built from a list of lines, and the bytes of a literal, for
    concrete sessions. *)
Definition table_of (entries : list cstring) : Z -> cstring :=
  fun i => nth (Z.to_nat i) entries [].

Definition ascii_bytes (s : String.string) : cstring :=
  map (fun c => Z.of_nat (Ascii.nat_of_ascii c)) (String.list_ascii_of_string s).

Definition text_line (s : String.string) : line :=
  (ascii_bytes s, Z.of_nat (String.length s)).

(** Well-formed states: the counters are [uint8_t], and every declared
    reference line, which shares the 64 KiB program space with its pointer
    table, is shorter than 65535 characters. *)
Definition short_lines (table : Z -> cstring) (total : Z) : Prop :=
  forall i, 0 <= i < total -> strlen (table i) < 65535.

Definition wf_state (state : ProgmemComparatorState) : Prop :=
  uint8 (line_number state) /\ uint8 (total_lines state) /\
  short_lines (pgm_entry_table state) (total_lines state).

Definition wf_lines (lines : list line) : Prop :=
  Forall (fun l => uint16 (snd l)) lines.

(** Every line of [lines] equals the reference line it is aligned with,
    the first one with entry [index]. *)
Fixpoint matches_from (table : Z -> cstring) (index : Z) (lines : list line)
    : bool :=
  match lines with
  | [] => true
  | l :: rest => line_equal (table index) l && matches_from table (index + 1) rest
  end.

(** The table and the sessions of the spec's example: the reference lines
    AAA, BB and C. *)
Definition abc_table : Z -> cstring :=
  table_of (map ascii_bytes ["AAA"; "BB"; "C"]%string).

Definition abc_state (verdict : bool) (index : Z) : ProgmemComparatorState :=
  {| is_equal := verdict; line_number := index; total_lines := 3;
     pgm_entry_table := abc_table |}.

End Comparator.
Import Comparator.

(** ** The GATT server: services, characteristics and their handles *)

Module Gatt.

(** The 16-bit UUID constants of [ble_constants.h], which is not part of
    this header: they are kept symbolic, under the names the code uses. *)
Inductive Uuid : Type :=
| CYCLING_POWER_SERVICE_UUID
| CYCLING_POWER_FEATURE_CHAR_UUID
| CYCLING_POWER_MEASUREMENT_CHAR_UUID
| SENSOR_LOCATION_CHAR_UUID
| CYCLING_SPEED_CADENCE_SERVICE_UUID
| CSC_FEATURE_CHAR_UUID
| CSC_MEASUREMENT_CHAR_UUID
| SC_CONTROL_POINT_CHAR_UUID.

(** Characteristic properties, the bit mask of the Bluefruit library
    ([Adafruit_BLEGatt.h]): [bit(b)] is [1 << b]. *)
Definition bit (b : Z) : Z := Z.shiftl 1 b.
Definition GATT_CHARS_PROPERTIES_BROADCAST : Z := bit 0.
Definition GATT_CHARS_PROPERTIES_READ : Z := bit 1.
Definition GATT_CHARS_PROPERTIES_WRITE_WO_RESP : Z := bit 2.
Definition GATT_CHARS_PROPERTIES_WRITE : Z := bit 3.
Definition GATT_CHARS_PROPERTIES_NOTIFY : Z := bit 4.
Definition GATT_CHARS_PROPERTIES_INDICATE : Z := bit 5.

(** Modelled from the spec: the flag constant of the Power measurement is
    declared in [ble_constants.h], which is not part of this header.  The
    spec gives the flags word as "0x0020 (accumulated-energy-present bit)". *)
Definition CPM_ACCUMULATED_ENERGY_PRESENT : Z := 0x0020.

(** Modelled from the spec: the two flag constants of the Speed/Cadence
    measurement are declared in [ble_constants.h] as well.  The spec gives
    the flags byte as 0x03, "wheel+crank bits set": bit 0 for the wheel
    data and bit 1 for the crank data. *)
Definition CSCM_WHEEL_REV_DATA_PRESENT : Z := 0x01.

(** Modelled from the spec: see [CSCM_WHEEL_REV_DATA_PRESENT]. *)
Definition CSCM_CRANK_REV_DATA_PRESENT : Z := 0x02.

(** A call on the [Adafruit_BLEGatt] object.  [addCharacteristic] is always
    called with automatic data type, no description and no presentation
    format; those arguments are not recorded. *)
Inductive GattCall : Type :=
| AddService (uuid : Uuid)
| AddCharacteristic (uuid : Uuid) (properties min_len max_len : Z)
| SetChar (charID : Z) (data : list Z).

(** The radio module behind [gatt_]: any state, answering a declaration
    with a handle (zero when it failed) and a write with its success. *)
Class Adafruit_BLEGatt : Type := {
  gatt_state : Type;
  addService : Uuid -> gatt_state -> Z * gatt_state;
  addCharacteristic : Uuid -> Z -> Z -> Z -> gatt_state -> Z * gatt_state;
  setChar : Z -> list Z -> gatt_state -> bool * gatt_state
}.

(** The nine [uint8_t] handle members of [class BLECyclingPower]. *)
Inductive Member : Type :=
| cp_service_id
| cp_feature_id
| cp_measurement_id
| cp_sensor_location_id
| csc_service_id
| csc_feature_id
| csc_measurement_id
| csc_sensor_location_id
| sc_control_point_id.

Definition Member_eqb (a b : Member) : bool :=
  match a, b with
  | cp_service_id, cp_service_id
  | cp_feature_id, cp_feature_id
  | cp_measurement_id, cp_measurement_id
  | cp_sensor_location_id, cp_sensor_location_id
  | csc_service_id, csc_service_id
  | csc_feature_id, csc_feature_id
  | csc_measurement_id, csc_measurement_id
  | csc_sensor_location_id, csc_sensor_location_id
  | sc_control_point_id, sc_control_point_id => true
  | _, _ => false
  end.

(** The members after [m] was assigned [v]. *)
Definition override (m : Member) (v : Z) (members : Member -> Z) : Member -> Z :=
  fun m' => if Member_eqb m m' then v else members m'.

(** An object of [class BLECyclingPower]: the GATT server it drives, the
    calls made on it so far (oldest first), the lines printed through
    [logger], and the value of each handle member. *)
Record BLECyclingPower `{Adafruit_BLEGatt} : Type := {
  gatt_ : gatt_state;
  gatt_calls : list GattCall;
  logger : list String.string;
  member : Member -> Z
}.

Section Methods.
Context `{Adafruit_BLEGatt}.

(** Member functions run in a state monad over the object. *)
Definition M (A : Type) : Type := BLECyclingPower -> A * BLECyclingPower.

Definition ret {A : Type} (a : A) : M A := fun this => (a, this).

Definition bind {A B : Type} (c : M A) (k : A -> M B) : M B :=
  fun this => let (a, this') := c this in k a this'.

Definition when (b : bool) (c : M unit) : M unit :=
  if b then c else ret tt.

(** Reading and assigning a handle member. *)
Definition read (m : Member) : M Z := fun this => (member this m, this).

Definition assign (m : Member) (v : Z) : M unit := fun this =>
  (tt, {| gatt_ := gatt_ this;
          gatt_calls := gatt_calls this;
          logger := logger this;
          member := override m v (member this) |}).

(** [logger.println(text)]. *)
Definition logger_println (text : String.string) : M unit := fun this =>
  (tt, {| gatt_ := gatt_ this;
          gatt_calls := gatt_calls this;
          logger := logger this ++ [text];
          member := member this |}).

(** A call on [gatt_]: it is recorded, and the module answers. *)
Definition gatt_call {A : Type} (c : GattCall)
    (answer : gatt_state -> A * gatt_state) : M A := fun this =>
  let (a, g) := answer (gatt_ this) in
  (a, {| gatt_ := g;
         gatt_calls := gatt_calls this ++ [c];
         logger := logger this;
         member := member this |}).

Definition gatt_addService (uuid : Uuid) : M Z :=
  gatt_call (AddService uuid) (addService uuid).

Definition gatt_addCharacteristic (uuid : Uuid) (properties min_len max_len : Z)
    : M Z :=
  gatt_call (AddCharacteristic uuid properties min_len max_len)
            (addCharacteristic uuid properties min_len max_len).

Definition gatt_setChar (charID : Z) (data : list Z) : M bool :=
  gatt_call (SetChar charID data) (setChar charID data).

End Methods.

Declare Scope method_scope.
Delimit Scope method_scope with method.
Notation "x <- c ;; k" := (bind c (fun x => k))
  (at level 61, c at next level, right associativity) : method_scope.
Notation "' pat <- c ;; k" := (bind c (fun x => match x with pat => k end))
  (at level 61, pat pattern, c at next level, right associativity)
  : method_scope.
Notation "c ;; k" := (bind c (fun _ => k))
  (at level 61, right associativity) : method_scope.

Section Catalog.
Context `{Adafruit_BLEGatt}.
Local Open Scope method_scope.
Local Open Scope string_scope.

(** [setup_cycling_power_feature] *)
Definition setup_cycling_power_feature : M unit :=
  id <- gatt_addService CYCLING_POWER_SERVICE_UUID ;;
  assign cp_service_id id ;;
  id <- read cp_service_id ;;
  when (id =? 0)
    (logger_println "Could not add the service CYCLING_POWER_SERVICE_UUID") ;;
  id <- gatt_addCharacteristic CYCLING_POWER_FEATURE_CHAR_UUID
          GATT_CHARS_PROPERTIES_READ 4 4 ;;
  assign cp_feature_id id ;;
  id <- read cp_feature_id ;;
  when (id =? 0)
    (logger_println
       "Could not add Characteristic CYCLING_POWER_FEATURE_CHAR_UUID") ;;
  id <- gatt_addCharacteristic CYCLING_POWER_MEASUREMENT_CHAR_UUID
          (Z.lor GATT_CHARS_PROPERTIES_READ GATT_CHARS_PROPERTIES_NOTIFY) 4 8 ;;
  assign cp_measurement_id id ;;
  id <- read cp_measurement_id ;;
  when (id =? 0)
    (logger_println
       "Could not add Characteristic CYCLING_POWER_MEASUREMENT_CHAR_UUID") ;;
  id <- gatt_addCharacteristic SENSOR_LOCATION_CHAR_UUID
          GATT_CHARS_PROPERTIES_READ 1 1 ;;
  assign cp_sensor_location_id id ;;
  id <- read cp_sensor_location_id ;;
  when (id =? 0)
    (logger_println
       "Could not add Characteristic CYCLING_POWER_MEASUREMENT_CHAR_UUID").

(** [setup_cycling_speed_cadence_feature] *)
Definition setup_cycling_speed_cadence_feature : M unit :=
  id <- gatt_addService CYCLING_SPEED_CADENCE_SERVICE_UUID ;;
  assign csc_service_id id ;;
  id <- read csc_service_id ;;
  when (id =? 0)
    (logger_println
       "Could not add the service CYCLING_SPEED_CADENCE_SERVICE_UUID") ;;
  id <- gatt_addCharacteristic CSC_FEATURE_CHAR_UUID
          GATT_CHARS_PROPERTIES_READ 2 2 ;;
  assign csc_feature_id id ;;
  id <- read csc_feature_id ;;
  when (id =? 0)
    (logger_println "Could not add the characteristic CSC_FEATURE_CHAR_UUID") ;;
  id <- gatt_addCharacteristic CSC_MEASUREMENT_CHAR_UUID
          GATT_CHARS_PROPERTIES_NOTIFY 11 11 ;;
  assign csc_measurement_id id ;;
  id <- read csc_measurement_id ;;
  when (id =? 0)
    (logger_println
       "Could not add the characteristic CSC_MEASUREMENT_CHAR_UUID") ;;
  id <- gatt_addCharacteristic SENSOR_LOCATION_CHAR_UUID
          GATT_CHARS_PROPERTIES_READ 1 1 ;;
  assign csc_sensor_location_id id ;;
  id <- read csc_sensor_location_id ;;
  when (id =? 0)
    (logger_println
       "Could not add the characteristic SENSOR_LOCATION_CHAR_UUID") ;;
  id <- gatt_addCharacteristic SC_CONTROL_POINT_CHAR_UUID
          (Z.lor GATT_CHARS_PROPERTIES_WRITE GATT_CHARS_PROPERTIES_INDICATE)
          1 5 ;;
  assign sc_control_point_id id ;;
  id <- read sc_control_point_id ;;
  when (id =? 0)
    (logger_println
       "Could not add the characteristic SC_CONTROL_POINT_CHAR_UUID").

(** The declarations of [initialize]: its two setup calls, in its order.
    The commands [initialize] sends around them go to the radio module
    directly and declare nothing. *)
Definition declare_services : M unit :=
  setup_cycling_power_feature ;;
  setup_cycling_speed_cadence_feature.

End Catalog.

Section Encoder.
Context `{Adafruit_BLEGatt}.
Local Open Scope method_scope.

(** The body of [if (update_cp)] up to the write: the Power measurement is
    laid out in [data], and [base] ends as its length. *)
Definition cp_measurement (data : list Z) (power_watts total_energy_kj : Z)
    : list Z * Z :=
  let base := 0 in
  (* flags: mandatory, 16 bit bitfield *)
  let flags := wrap16 CPM_ACCUMULATED_ENERGY_PRESENT in
  let '(data, base) := APPEND_BUFFER data base 2 flags in
  (* Instantaneous power: mandatory sint16 in Watts *)
  let power_watts := if power_watts >? 0x7FFF then 0x7FFF else power_watts in
  let '(data, base) := APPEND_BUFFER data base 2 power_watts in
  (* accumulated energy is in kJ uint16 *)
  let '(data, base) := APPEND_BUFFER data base 2 total_energy_kj in
  (data, base).

(** The body of [if (update_csc)] up to the write.  The timestamps are
    [uint32_t], so [* 128] is a 32-bit multiplication; the cast to
    [uint16_t] keeps the low 16 bits of the quotient. *)
Definition csc_measurement (data : list Z)
    (crank_revs last_crank_rev_timestamp_ms
     wheel_revs last_wheel_rev_timestamp_ms : Z) : list Z * Z :=
  let base := 0 in
  (* Flags: uint8 *)
  let csc_flags :=
    wrap8 (Z.lor CSCM_WHEEL_REV_DATA_PRESENT CSCM_CRANK_REV_DATA_PRESENT) in
  let '(data, base) := APPEND_BUFFER data base 1 csc_flags in
  (* Cumulative wheel revs uint32 *)
  let '(data, base) := APPEND_BUFFER data base 4 wheel_revs in
  (* Last wheel rev event time: uint16, 1/1024s resolution *)
  let last_wheel_event_time_csc :=
    wrap16 (wrap32 (last_wheel_rev_timestamp_ms * 128) / 125) in
  let '(data, base) := APPEND_BUFFER data base 2 last_wheel_event_time_csc in
  (* Cumulative crank revs uint16 *)
  let '(data, base) := APPEND_BUFFER data base 2 crank_revs in
  (* Last Crank event time uint16 in 1/1024s units *)
  let last_crank_event_time :=
    wrap16 (wrap32 (last_crank_rev_timestamp_ms * 128) / 125) in
  let '(data, base) := APPEND_BUFFER data base 2 last_crank_event_time in
  (data, base).

(** [handle_sc_control_point]: returns at once. *)
Definition handle_sc_control_point : M unit := ret tt.

(** [update].  The parameters are, in order, [uint16_t], [uint32_t],
    [uint32_t], [uint32_t], [uint16_t] and [uint16_t]; [setChar] is handed
    the first [base] bytes of [data]. *)
Definition update
    (crank_revs last_crank_rev_timestamp_ms
     wheel_revs last_wheel_rev_timestamp_ms
     power_watts total_energy_kj : Z) : M bool :=
  let data := repeat 0 11%nat in
  let update_cp := true in
  let update_csc := true in
  '(data, cpm_success) <-
    (if update_cp : bool then
       let '(data, base) := cp_measurement data power_watts total_energy_kj in
       id <- read cp_measurement_id ;;
       ok <- gatt_setChar id (firstn (Z.to_nat base) data) ;;
       ret (data, ok)
     else ret (data, true)) ;;
  '(data, csc_success) <-
    (if update_csc : bool then
       let '(data, base) :=
         csc_measurement data crank_revs last_crank_rev_timestamp_ms
                         wheel_revs last_wheel_rev_timestamp_ms in
       id <- read csc_measurement_id ;;
       ok <- gatt_setChar id (firstn (Z.to_nat base) data) ;;
       ret (data, ok)
     else ret (data, true)) ;;
  handle_sc_control_point ;;
  ret (cpm_success && csc_success).

(** The bytes [update] hands to [setChar] for each characteristic.  The
    Speed/Cadence message is built in the array the Power message was
    built in. *)
Definition power_payload (power_watts total_energy_kj : Z) : list Z :=
  let '(data, base) :=
    cp_measurement (repeat 0 11%nat) power_watts total_energy_kj in
  firstn (Z.to_nat base) data.

Definition csc_payload
    (crank_revs last_crank_rev_timestamp_ms
     wheel_revs last_wheel_rev_timestamp_ms
     power_watts total_energy_kj : Z) : list Z :=
  let data :=
    fst (cp_measurement (repeat 0 11%nat) power_watts total_energy_kj) in
  let '(data, base) :=
    csc_measurement data crank_revs last_crank_rev_timestamp_ms
                    wheel_revs last_wheel_rev_timestamp_ms in
  firstn (Z.to_nat base) data.

End Encoder.

(** *** A receiver's view of the payloads *)

(** Cycling Power Measurement: flags, instantaneous power, accumulated
    energy, each a little-endian 16-bit field. *)
Record PowerMeasurement : Type := {
  pm_flags : Z;
  pm_power : Z;
  pm_energy : Z
}.

Definition decode_power (payload : list Z) : PowerMeasurement :=
  {| pm_flags := of_le (slice 0 2 payload);
     pm_power := of_le (slice 2 2 payload);
     pm_energy := of_le (slice 4 2 payload) |}.

(** CSC Measurement: flags byte, 32-bit wheel revolutions, 16-bit wheel
    event time, 16-bit crank revolutions, 16-bit crank event time. *)
Record CscMeasurement : Type := {
  csc_flags : Z;
  csc_wheel_revs : Z;
  csc_wheel_time : Z;
  csc_crank_revs : Z;
  csc_crank_time : Z
}.

Definition decode_csc (payload : list Z) : CscMeasurement :=
  {| csc_flags := of_le (slice 0 1 payload);
     csc_wheel_revs := of_le (slice 1 4 payload);
     csc_wheel_time := of_le (slice 5 2 payload);
     csc_crank_revs := of_le (slice 7 2 payload);
     csc_crank_time := of_le (slice 9 2 payload) |}.

(** The bits set in a flags word, lowest first, among its low [width]. *)
Definition bits_set (width : nat) (flags : Z) : list Z :=
  filter (Z.testbit flags) (map Z.of_nat (seq 0 width)).

(** The spec's conversion of a millisecond timestamp to the 16-bit event
    time in 1/1024 s units: [(t * 128 / 125) mod 65536], with floor division
    over the integers. *)
Definition spec_event_time (t : Z) : Z := (t * 128 / 125) mod 65536.

(** *** The catalog as a client sees it *)

Inductive Access : Type :=
| Broadcast | Read | WriteWithoutResponse | Write | Notify | Indicate.

Definition access_mask (a : Access) : Z :=
  match a with
  | Broadcast => GATT_CHARS_PROPERTIES_BROADCAST
  | Read => GATT_CHARS_PROPERTIES_READ
  | WriteWithoutResponse => GATT_CHARS_PROPERTIES_WRITE_WO_RESP
  | Write => GATT_CHARS_PROPERTIES_WRITE
  | Notify => GATT_CHARS_PROPERTIES_NOTIFY
  | Indicate => GATT_CHARS_PROPERTIES_INDICATE
  end.

(** The accesses a properties byte grants; [None] when it has a bit outside
    the six the library names. *)
Definition accesses (properties : Z) : option (list Access) :=
  if Z.land properties (Z.lnot 63) =? 0
  then Some (filter (fun a => negb (Z.land properties (access_mask a) =? 0))
                    [Broadcast; Read; WriteWithoutResponse; Write; Notify;
                     Indicate])
  else None.

Inductive Declaration : Type :=
| Service (uuid : Uuid)
| Characteristic (uuid : Uuid) (access : option (list Access))
                 (min_len max_len : Z).

Definition declarations (calls : list GattCall) : list Declaration :=
  flat_map (fun c =>
              match c with
              | AddService uuid => [Service uuid]
              | AddCharacteristic uuid properties min_len max_len =>
                  [Characteristic uuid (accesses properties) min_len max_len]
              | SetChar _ _ => []
              end) calls.

(** The member each declaration of [initialize] is assigned to, in the order
    of the declarations, and the line printed when its handle is zero. *)
Definition slots : list Member :=
  [cp_service_id; cp_feature_id; cp_measurement_id; cp_sensor_location_id;
   csc_service_id; csc_feature_id; csc_measurement_id; csc_sensor_location_id;
   sc_control_point_id].

Definition failure_line (m : Member) : String.string :=
  match m with
  | cp_service_id =>
      "Could not add the service CYCLING_POWER_SERVICE_UUID"
  | cp_feature_id =>
      "Could not add Characteristic CYCLING_POWER_FEATURE_CHAR_UUID"
  | cp_measurement_id =>
      "Could not add Characteristic CYCLING_POWER_MEASUREMENT_CHAR_UUID"
  | cp_sensor_location_id =>
      "Could not add Characteristic CYCLING_POWER_MEASUREMENT_CHAR_UUID"
  | csc_service_id =>
      "Could not add the service CYCLING_SPEED_CADENCE_SERVICE_UUID"
  | csc_feature_id =>
      "Could not add the characteristic CSC_FEATURE_CHAR_UUID"
  | csc_measurement_id =>
      "Could not add the characteristic CSC_MEASUREMENT_CHAR_UUID"
  | csc_sensor_location_id =>
      "Could not add the characteristic SENSOR_LOCATION_CHAR_UUID"
  | sc_control_point_id =>
      "Could not add the characteristic SC_CONTROL_POINT_CHAR_UUID"
  end%string.

(** The UUID constant each member's declaration is made with. *)
Definition declared_uuid (m : Member) : Uuid :=
  match m with
  | cp_service_id => CYCLING_POWER_SERVICE_UUID
  | cp_feature_id => CYCLING_POWER_FEATURE_CHAR_UUID
  | cp_measurement_id => CYCLING_POWER_MEASUREMENT_CHAR_UUID
  | cp_sensor_location_id => SENSOR_LOCATION_CHAR_UUID
  | csc_service_id => CYCLING_SPEED_CADENCE_SERVICE_UUID
  | csc_feature_id => CSC_FEATURE_CHAR_UUID
  | csc_measurement_id => CSC_MEASUREMENT_CHAR_UUID
  | csc_sensor_location_id => SENSOR_LOCATION_CHAR_UUID
  | sc_control_point_id => SC_CONTROL_POINT_CHAR_UUID
  end.

Definition uuid_name (u : Uuid) : String.string :=
  match u with
  | CYCLING_POWER_SERVICE_UUID => "CYCLING_POWER_SERVICE_UUID"
  | CYCLING_POWER_FEATURE_CHAR_UUID => "CYCLING_POWER_FEATURE_CHAR_UUID"
  | CYCLING_POWER_MEASUREMENT_CHAR_UUID => "CYCLING_POWER_MEASUREMENT_CHAR_UUID"
  | SENSOR_LOCATION_CHAR_UUID => "SENSOR_LOCATION_CHAR_UUID"
  | CYCLING_SPEED_CADENCE_SERVICE_UUID => "CYCLING_SPEED_CADENCE_SERVICE_UUID"
  | CSC_FEATURE_CHAR_UUID => "CSC_FEATURE_CHAR_UUID"
  | CSC_MEASUREMENT_CHAR_UUID => "CSC_MEASUREMENT_CHAR_UUID"
  | SC_CONTROL_POINT_CHAR_UUID => "SC_CONTROL_POINT_CHAR_UUID"
  end%string.

(** A failure line names a declaration when it ends with the name of the
    declaration's UUID constant. *)
Fixpoint ends_with (suffix text : String.string) : bool :=
  if String.eqb suffix text then true
  else match text with
       | String.EmptyString => false
       | String.String _ rest => ends_with suffix rest
       end.

Definition names (text : String.string) (m : Member) : bool :=
  ends_with (uuid_name (declared_uuid m)) text.

(** The lines printed for a declaration answered with [handle]. *)
Definition reported (m : Member) (handle : Z) : list String.string :=
  if handle =? 0 then [failure_line m] else [].

(** The declarations of [initialize], as calls on [gatt_]. *)
Definition power_catalog : list GattCall :=
  [AddService CYCLING_POWER_SERVICE_UUID;
   AddCharacteristic CYCLING_POWER_FEATURE_CHAR_UUID
     GATT_CHARS_PROPERTIES_READ 4 4;
   AddCharacteristic CYCLING_POWER_MEASUREMENT_CHAR_UUID
     (Z.lor GATT_CHARS_PROPERTIES_READ GATT_CHARS_PROPERTIES_NOTIFY) 4 8;
   AddCharacteristic SENSOR_LOCATION_CHAR_UUID GATT_CHARS_PROPERTIES_READ 1 1].

Definition speed_cadence_catalog : list GattCall :=
  [AddService CYCLING_SPEED_CADENCE_SERVICE_UUID;
   AddCharacteristic CSC_FEATURE_CHAR_UUID GATT_CHARS_PROPERTIES_READ 2 2;
   AddCharacteristic CSC_MEASUREMENT_CHAR_UUID
     GATT_CHARS_PROPERTIES_NOTIFY 11 11;
   AddCharacteristic SENSOR_LOCATION_CHAR_UUID GATT_CHARS_PROPERTIES_READ 1 1;
   AddCharacteristic SC_CONTROL_POINT_CHAR_UUID
     (Z.lor GATT_CHARS_PROPERTIES_WRITE GATT_CHARS_PROPERTIES_INDICATE) 1 5].

(** What the radio module answers to a list of declarations made in turn:
    the handles, and its state afterwards. *)
Definition declare `{Adafruit_BLEGatt} (c : GattCall) (g : gatt_state)
    : Z * gatt_state :=
  match c with
  | AddService uuid => addService uuid g
  | AddCharacteristic uuid properties min_len max_len =>
      addCharacteristic uuid properties min_len max_len g
  | SetChar _ _ => (0, g)
  end.

Fixpoint answers `{Adafruit_BLEGatt} (cs : list GattCall) (g : gatt_state)
    : list Z * gatt_state :=
  match cs with
  | [] => ([], g)
  | c :: rest =>
      let (h, g1) := declare c g in
      let (hs, g2) := answers rest g1 in
      (h :: hs, g2)
  end.

(** The members after [ms] were assigned [hs], one after the other. *)
Fixpoint assigned (ms : list Member) (hs : list Z) (members : Member -> Z)
    : Member -> Z :=
  match ms, hs with
  | m :: ms', h :: hs' => assigned ms' hs' (override m h members)
  | _, _ => members
  end.

Fixpoint reports (ms : list Member) (hs : list Z) : list String.string :=
  match ms, hs with
  | m :: ms', h :: hs' => reported m h ++ reports ms' hs'
  | _, _ => []
  end.

(** *** A scripted radio module *)

(** A GATT server that answers the declarations with the queued handles,
    and the writes with the queued results, each in turn; an exhausted queue
    answers zero, respectively failure. *)
Definition Script : Type := (list Z * list bool)%type.

Definition next_handle (s : Script) : Z * Script :=
  match fst s with
  | [] => (0, s)
  | h :: rest => (h, (rest, snd s))
  end.

Definition next_result (s : Script) : bool * Script :=
  match snd s with
  | [] => (false, s)
  | r :: rest => (r, (fst s, rest))
  end.

Definition Scripted : Adafruit_BLEGatt :=
  {| gatt_state := Script;
     addService := fun _ => next_handle;
     addCharacteristic := fun _ _ _ _ => next_handle;
     setChar := fun _ _ => next_result |}.

(** A freshly constructed object on the scripted module; the handle members
    are not initialised by the constructor and read as [junk]. *)
Definition fresh (script : Script) (junk : Z) : @BLECyclingPower Scripted :=
  @Build_BLECyclingPower Scripted script [] [] (fun _ => junk).

End Gatt.
Import Gatt.

(** ** Further definitions for the comparator *)

Module Sessions.

(** The session that supplies the lines of a table themselves, each with
    its own length. *)
Definition own_lines (entries : list cstring) : list line :=
  map (fun entry => (entry, Z.of_nat (length entry))) entries.

(** Entries a table can hold as they stand: no NUL byte inside, and fewer
    than 65535 characters. *)
Definition plain (entry : cstring) : bool :=
  forallb (fun c => negb (c =? 0)) entry && (Z.of_nat (length entry) <? 65535).

(** The state a session starts in, on a table built from [entries]. *)
Definition start_on (entries : list cstring) : ProgmemComparatorState :=
  {| is_equal := true;
     line_number := 0;
     total_lines := Z.of_nat (length entries);
     pgm_entry_table := table_of entries |}.

End Sessions.
Import Sessions.

(** ** Further definitions for the catalog *)

Module Bounds.

Definition Uuid_eqb (a b : Uuid) : bool :=
  match a, b with
  | CYCLING_POWER_SERVICE_UUID, CYCLING_POWER_SERVICE_UUID
  | CYCLING_POWER_FEATURE_CHAR_UUID, CYCLING_POWER_FEATURE_CHAR_UUID
  | CYCLING_POWER_MEASUREMENT_CHAR_UUID, CYCLING_POWER_MEASUREMENT_CHAR_UUID
  | SENSOR_LOCATION_CHAR_UUID, SENSOR_LOCATION_CHAR_UUID
  | CYCLING_SPEED_CADENCE_SERVICE_UUID, CYCLING_SPEED_CADENCE_SERVICE_UUID
  | CSC_FEATURE_CHAR_UUID, CSC_FEATURE_CHAR_UUID
  | CSC_MEASUREMENT_CHAR_UUID, CSC_MEASUREMENT_CHAR_UUID
  | SC_CONTROL_POINT_CHAR_UUID, SC_CONTROL_POINT_CHAR_UUID => true
  | _, _ => false
  end.

(** The length bounds a characteristic was declared with: [min_len] and
    [max_len] of the first [addCharacteristic] call for [uuid]. *)
Fixpoint declared_bounds (uuid : Uuid) (calls : list GattCall)
    : option (Z * Z) :=
  match calls with
  | [] => None
  | AddCharacteristic uuid' _ min_len max_len :: rest =>
      if Uuid_eqb uuid uuid' then Some (min_len, max_len)
      else declared_bounds uuid rest
  | _ :: rest => declared_bounds uuid rest
  end.

(** A value fits a characteristic when its length is within the bounds the
    characteristic was declared with. *)
Definition fits (calls : list GattCall) (uuid : Uuid) (value : list Z) : bool :=
  match declared_bounds uuid calls with
  | Some (min_len, max_len) =>
      (min_len <=? Z.of_nat (length value))
      && (Z.of_nat (length value) <=? max_len)
  | None => false
  end.

End Bounds.
Import Bounds.

(** ** Diagnostics: the logging callback and the status report *)

Module Diagnostics.

Definition TAB : String.string :=
  String.String (Ascii.ascii_of_nat 9) String.EmptyString.
Definition LF : String.string :=
  String.String (Ascii.ascii_of_nat 10) String.EmptyString.
Definition QUOTE : String.string :=
  String.String (Ascii.ascii_of_nat 34) String.EmptyString.

(** [snprintf_P(buf, size, ...)] leaves in [buf] the first [size - 1]
    characters of the formatted text, and a NUL after them. *)
Definition snprintf_P (size : nat) (formatted : cstring) : cstring :=
  firstn (size - 1) formatted.

(** The conversion [%d] reads its argument as an [int], 16 bits wide on
    this target, and prints it in decimal. *)
Definition as_int (x : Z) : Z := (x + 2 ^ 15) mod 2 ^ 16 - 2 ^ 15.

Definition decimal (x : Z) : cstring :=
  ascii_bytes (DecimalString.NilZero.string_of_int (Z.to_int x)).

(** [Serial.print(s)] writes the characters of the C string [s];
    [Serial.println(s)] writes a carriage return and a line feed after
    them.  The serial port is modelled by the bytes written to it. *)
Definition Serial_print (s : cstring) (serial : list Z) : list Z :=
  serial ++ chars s.

Definition Serial_println (s : cstring) (serial : list Z) : list Z :=
  serial ++ chars s ++ [13; 10].

(** [logging_callback]; [callback_data] is not used. *)
Definition logging_callback {A : Type} (callback_data : A)
    (linebuf : cstring) (line_len : Z) (serial : list Z) : list Z :=
  let logbuf :=
    snprintf_P 32 (ascii_bytes "LOG CALLBACK: "%string ++ decimal (as_int line_len)
                   ++ ascii_bytes (String.append LF QUOTE)) in
  let serial := Serial_print logbuf serial in
  let serial := Serial_print linebuf serial in
  Serial_println (ascii_bytes QUOTE) serial.

(** [strcpy_P(buf, text)] into an array of [size] bytes: the text and its
    NUL must fit, writing past the array is not modelled. *)
Definition strcpy_P (size : nat) (text : String.string) : option String.string :=
  if (String.length text + 1 <=? size)%nat then Some text else None.

(** The texts [serial_status_text] copies from program memory. *)
Definition status_title : String.string :=
  String.concat String.EmptyString
    [TAB; TAB; "BLECyclingPower:"; LF]%string.
Definition status_cp_header : String.string :=
  String.concat String.EmptyString
    [TAB; TAB; "CP SERVICE"; LF; TAB; TAB; "sid  fid  mid  slid"; LF]%string.
Definition status_csc_header : String.string :=
  String.concat String.EmptyString
    [TAB; TAB; "CSC SERVICE"; LF; TAB; TAB; "sid  fid  mid  slid"; LF]%string.

Section Status.
Context `{Adafruit_BLEGatt}.

(** What [printf] makes of the row format, tab tab [% 3hhu] [% 3hhu]
    [% 3hhu] [% 4hhu] line feed, and four handles: the formatting is the C
    library's and is a parameter here. *)
Variable status_row : Z -> Z -> Z -> Z -> String.string.

(** [logger.print(text)]. *)
Definition logger_print (text : String.string) (this : BLECyclingPower)
    : BLECyclingPower :=
  {| gatt_ := gatt_ this;
     gatt_calls := gatt_calls this;
     logger := logger this ++ [text];
     member := member this |}.

(** [snprintf_P(buf, 40, row format, a, b, c, d)]. *)
Definition snprintf_row (size : nat) (a b c d : Z) : String.string :=
  String.substring 0 (size - 1) (status_row a b c d).

(** [serial_status_text]; [None] when a [strcpy_P] would overrun [buf]. *)
Definition serial_status_text (this : BLECyclingPower)
    : option BLECyclingPower :=
  match strcpy_P 40 status_title with
  | None => None
  | Some buf =>
      let this := logger_print buf this in
      match strcpy_P 40 status_cp_header with
      | None => None
      | Some buf =>
          let this := logger_print buf this in
          let buf :=
            snprintf_row 40 (member this cp_service_id)
                         (member this cp_feature_id)
                         (member this cp_measurement_id)
                         (member this cp_sensor_location_id) in
          let this := logger_print buf this in
          match strcpy_P 40 status_csc_header with
          | None => None
          | Some buf =>
              let this := logger_print buf this in
              let buf :=
                snprintf_row 40 (member this csc_service_id)
                             (member this csc_feature_id)
                             (member this csc_measurement_id)
                             (member this csc_sensor_location_id) in
              Some (logger_print buf this)
          end
      end
  end.

End Status.

(** [p] holds of the [fuel] integers from [z] on. *)
Fixpoint all_from (fuel : nat) (z : Z) (p : Z -> bool) : bool :=
  match fuel with
  | O => true
  | S k => p z && all_from k (z + 1) p
  end.

(** The header of [logging_callback] for [line_len], before [snprintf_P]
    cuts it, and the test that the cut and the print leave it whole. *)
Definition log_header (line_len : Z) : cstring :=
  ascii_bytes "LOG CALLBACK: "%string ++ decimal (as_int line_len)
  ++ ascii_bytes (String.append LF QUOTE).

Definition header_whole (line_len : Z) : bool :=
  (length (log_header line_len) <=? 31)%nat
  && forallb (fun c => negb (c =? 0)) (log_header line_len).

End Diagnostics.
Import Diagnostics.

(** ** Bring-up: [initialize] *)

Module Bringup.

(** A call on [ble_], the radio module itself: [reset()], [echo(enable)],
    [atcommand(cmd)] and [sendCommandCheckOK(cmd)]. *)
Inductive BleCall : Type :=
| Reset
| Echo (enable : bool)
| AtCommand (cmd : String.string)
| SendCommandCheckOK (cmd : String.string).

(** [gatt_] is built on [ble_]: the two drive one module, whose state a
    call on [ble_] may change as well.  Each of the four functions returns
    a [bool]. *)
Class Adafruit_BLE `{Adafruit_BLEGatt} : Type := {
  ble_command : BleCall -> gatt_state -> bool * gatt_state
}.

(** Everything sent to the module, in the order it was sent. *)
Inductive Command : Type :=
| OnBle (c : BleCall)
| OnGatt (c : GattCall).

Record Board `{Adafruit_BLEGatt} : Type := {
  object : BLECyclingPower;
  wire : list Command
}.

(** The module after a list of calls on [ble_]. *)
Definition after_commands `{Adafruit_BLE} (cs : list BleCall)
    (g : gatt_state) : gatt_state :=
  fold_left (fun g c => snd (ble_command c g)) cs g.

Section Initialize.
Context `{Adafruit_BLE}.
Local Open Scope string_scope.

(** [LOG_LEVEL >= LOG_LEVEL_DEBUG]; both constants are declared outside
    this header. *)
Variable debug : bool.

(** The bytes [setChar] stores for the argument
    [SENSOR_LOCATION_LEFT_CRANK]; the constant is declared in
    [ble_constants.h], and its type selects the overload. *)
Variable SENSOR_LOCATION_LEFT_CRANK : list Z.

(** The feature bits of [ble_constants.h]. *)
Variable CPF_CRANK_REVOLUTION_DATA_SUPPORTED : Z.
Variable CPF_WHEEL_REVOLUTION_DATA_SUPPORTED : Z.
Variable CPF_ACCUMULATED_ENERGY_SUPPORTED : Z.
Variable CSCF_CRANK_REVOLUTION_DATA_SUPPORTED : Z.
Variable CSCF_WHEEL_REVOLUTION_DATA_SUPPORTED : Z.

Definition B (A : Type) : Type := Board -> A * Board.

Definition retB {A : Type} (a : A) : B A := fun board => (a, board).

Definition bindB {A C : Type} (c : B A) (k : A -> B C) : B C :=
  fun board => let (a, board') := c board in k a board'.

(** A member function, or a call on [gatt_] or [logger], run on the
    object: the calls it makes on [gatt_] go on the wire. *)
Definition on_object {A : Type} (m : M A) : B A := fun board =>
  let (a, this') := m (object board) in
  (a, {| object := this';
         wire := wire board
                 ++ map OnGatt (skipn (length (gatt_calls (object board)))
                                      (gatt_calls this')) |}).

(** A call on [ble_]. *)
Definition ble_ (c : BleCall) : B bool := fun board =>
  let (ok, g) := ble_command c (gatt_ (object board)) in
  (ok, {| object := {| gatt_ := g;
                       gatt_calls := gatt_calls (object board);
                       logger := logger (object board);
                       member := member (object board) |};
          wire := wire board ++ [OnBle c] |}).

(** [gatt_.setChar(member, value)] with the value's bytes. *)
Definition set_initial (m : Member) (value : list Z) : B bool :=
  on_object (bind (read m) (fun id => gatt_setChar id value)).

Definition GAPSETADVDATA : String.string :=
  "AT+GAPSETADVDATA=02-01-06-02-0a-00-11-06-9e-ca-dc-24-0e-e5-a9-e0-93-f3-a3-b5-01-00-40-6e-05-02-18-18-16-18".

Definition checking_gatts : String.string :=
  String.append "Checking GATTs" LF.

(** [initialize].  The typed overloads of [setChar] store the object
    representation of their argument: four bytes for the [uint32_t], two
    for the [uint16_t]. *)
Definition initialize : B unit :=
  bindB (ble_ Reset) (fun _ =>
  bindB (ble_ (Echo false)) (fun _ =>
  bindB (ble_ (AtCommand "AT+GATTCLEAR")) (fun _ =>
  bindB (ble_ (SendCommandCheckOK "AT+GAPDEVNAME=PeloMon")) (fun _ =>
  bindB (on_object setup_cycling_power_feature) (fun _ =>
  bindB (on_object setup_cycling_speed_cadence_feature) (fun _ =>
  bindB (ble_ (SendCommandCheckOK GAPSETADVDATA)) (fun _ =>
  bindB (ble_ Reset) (fun _ =>
  bindB (if debug
         then bindB (on_object (fun this =>
                                  (tt, logger_print checking_gatts this)))
                    (fun _ => ble_ (SendCommandCheckOK "AT+GATTLIST"))
         else retB true) (fun _ =>
  bindB (set_initial cp_sensor_location_id SENSOR_LOCATION_LEFT_CRANK) (fun _ =>
  bindB (set_initial csc_sensor_location_id SENSOR_LOCATION_LEFT_CRANK) (fun _ =>
  bindB (set_initial cp_feature_id
           (to_le 4 (wrap32 (Z.lor (Z.lor CPF_CRANK_REVOLUTION_DATA_SUPPORTED
                                          CPF_WHEEL_REVOLUTION_DATA_SUPPORTED)
                                   CPF_ACCUMULATED_ENERGY_SUPPORTED))))
        (fun _ =>
  bindB (set_initial csc_feature_id
           (to_le 2 (wrap16 (Z.lor CSCF_CRANK_REVOLUTION_DATA_SUPPORTED
                                   CSCF_WHEEL_REVOLUTION_DATA_SUPPORTED))))
        (fun _ =>
  let zero := 0 in
  bindB (set_initial sc_control_point_id (firstn 1 [zero])) (fun _ =>
  retB tt)))))))))))))).

End Initialize.

(** A scripted module for [ble_]: every call on it succeeds and leaves
    the queues of the scripted GATT server alone. *)
Definition ScriptedBle : @Adafruit_BLE Scripted :=
  {| ble_command := fun _ (s : @gatt_state Scripted) => (true, s) |}.

Definition fresh_board (script : Script) (junk : Z) : @Board Scripted :=
  @Build_Board Scripted (fresh script junk) [].

End Bringup.
Import Bringup.

(** * Part II: properties *)

(** ** Integers and bytes *)

Lemma wrap8_small x : uint8 x -> wrap8 x = x.
Proof. unfold uint8, wrap8; intros; now apply Z.mod_small. Qed.

Lemma wrap16_small x : uint16 x -> wrap16 x = x.
Proof. unfold uint16, wrap16; intros; now apply Z.mod_small. Qed.

Lemma wrap32_small x : uint32 x -> wrap32 x = x.
Proof. unfold uint32, wrap32; intros; now apply Z.mod_small. Qed.

Lemma wrap16_range x : uint16 (wrap16 x).
Proof. unfold uint16, wrap16; apply Z.mod_pos_bound; lia. Qed.

Lemma of_le_to_le n v : of_le (to_le n v) = v mod 256 ^ Z.of_nat n.
Proof.
  revert v; induction n as [|k IH]; intros v.
  - cbn [to_le of_le Z.of_nat]. rewrite Z.pow_0_r. symmetry. apply Z.mod_1_r.
  - cbn [to_le of_le]. rewrite IH, Nat2Z.inj_succ, Z.pow_succ_r by lia.
    rewrite (Z.rem_mul_r v 256 (256 ^ Z.of_nat k)) by lia. reflexivity.
Qed.

Lemma of_le_u8 v : uint8 v -> of_le (to_le 1 v) = v.
Proof.
  intros Hv. rewrite of_le_to_le. apply Z.mod_small.
  unfold uint8 in Hv. change (256 ^ Z.of_nat 1) with (2 ^ 8). exact Hv.
Qed.

Lemma of_le_u16 v : uint16 v -> of_le (to_le 2 v) = v.
Proof.
  intros Hv. rewrite of_le_to_le. apply Z.mod_small.
  unfold uint16 in Hv. change (256 ^ Z.of_nat 2) with (2 ^ 16). exact Hv.
Qed.

Lemma of_le_u32 v : uint32 v -> of_le (to_le 4 v) = v.
Proof.
  intros Hv. rewrite of_le_to_le. apply Z.mod_small.
  unfold uint32 in Hv. change (256 ^ Z.of_nat 4) with (2 ^ 32). exact Hv.
Qed.

(** ** The line comparator *)

Lemma bytes_eqb_eq a b : bytes_eqb a b = true <-> a = b.
Proof.
  revert b; induction a as [|x a IH]; intros [|y b]; simpl;
    try (split; [discriminate | congruence]); [tauto|].
  rewrite andb_true_iff, Z.eqb_eq, IH. split.
  - intros [-> ->]; reflexivity.
  - intros E; injection E; auto.
Qed.

Lemma strnlen_upto_min s n :
  strnlen_upto s n = Nat.min (length (chars s)) n.
Proof.
  revert s; induction n as [|m IH]; intros s.
  - rewrite Nat.min_0_r. reflexivity.
  - destruct s as [|c rest]; [reflexivity|]. cbn [strnlen_upto chars].
    destruct (c =? 0); simpl; [reflexivity|]. now rewrite IH.
Qed.

(** With the bound at the reference's own length, [strncmp_P] returns zero
    exactly when that many supplied bytes are the reference's characters. *)
Lemma strncmp_upto_chars ref : forall buf,
  (0 =? strncmp_upto buf ref (length (chars ref)))
  = bytes_eqb (firstn (length (chars ref)) buf) (chars ref).
Proof.
  induction ref as [|c ref IH]; intros buf; [reflexivity|].
  cbn [chars]. destruct (c =? 0) eqn:Ec; [reflexivity|].
  cbn [length strncmp_upto hd tl].
  destruct buf as [|b buf]; cbn [hd tl firstn bytes_eqb].
  - rewrite (Z.eqb_sym 0 c), Ec. apply Z.eqb_neq in Ec.
    apply Z.eqb_neq. lia.
  - destruct (b =? c) eqn:Ebc.
    + apply Z.eqb_eq in Ebc; subst b. rewrite Ec. apply IH.
    + apply Z.eqb_neq in Ebc. apply Z.eqb_neq. lia.
Qed.

(** The length test of the callback is a test against the reference's full
    length, although [strnlen_P] stops counting at [line_len + 1]. *)
Lemma length_test ref line_len :
  uint16 line_len -> strlen ref < 65535 ->
  (line_len =? wrap16 (strnlen_P ref (wrap16 (line_len + 1))))
  = (line_len =? strlen ref).
Proof.
  unfold uint16, strlen, strnlen_P. intros Hl Hr.
  rewrite strnlen_upto_min.
  destruct (Z.eq_dec line_len 65535) as [-> | Hne].
  - change (wrap16 (65535 + 1)) with 0. simpl Z.to_nat.
    rewrite Nat.min_0_r. change (wrap16 (Z.of_nat 0)) with 0.
    symmetry. apply Z.eqb_neq. lia.
  - rewrite (wrap16_small (line_len + 1)) by (unfold uint16; lia).
    rewrite wrap16_small by (unfold uint16; lia).
    destruct (line_len =? Z.of_nat (length (chars ref))) eqn:E.
    + apply Z.eqb_eq in E. apply Z.eqb_eq. lia.
    + apply Z.eqb_neq in E. apply Z.eqb_neq. lia.
Qed.

(** At [line_len = 65535] the bound [line_len + 1] wraps to zero and the
    length test fails whatever the reference line is; no line of a
    well-formed table is that long. *)
Remark length_test_at_65535 ref :
  (65535 =? wrap16 (strnlen_P ref (wrap16 (65535 + 1)))) = false.
Proof. reflexivity. Qed.

(** The verdict computed by one comparison. *)
Lemma callback_verdict b ref linebuf line_len :
  uint16 line_len -> strlen ref < 65535 ->
  b && (line_len =? wrap16 (strnlen_P ref (wrap16 (line_len + 1))))
    && (0 =? strncmp_P linebuf ref line_len)
  = b && (line_len =? strlen ref)
      && bytes_eqb (supplied linebuf line_len) (chars ref).
Proof.
  intros Hl Hr. rewrite length_test by assumption.
  destruct (line_len =? strlen ref) eqn:E.
  - apply Z.eqb_eq in E. unfold strncmp_P, supplied. rewrite E.
    unfold strlen. rewrite Nat2Z.id, strncmp_upto_chars. reflexivity.
  - now rewrite !andb_false_r.
Qed.

Lemma callback_past_end state linebuf line_len :
  total_lines state <= line_number state ->
  string_comparator_callback state linebuf line_len = state.
Proof.
  intros Hge. unfold string_comparator_callback.
  destruct (line_number state >=? total_lines state) eqn:E; [reflexivity|].
  rewrite Z.geb_leb in E; apply Z.leb_gt in E. lia.
Qed.

Lemma callback_in_range state linebuf line_len :
  line_number state < total_lines state ->
  string_comparator_callback state linebuf line_len =
  {| is_equal :=
       is_equal state
       && (line_len =? wrap16 (strnlen_P
                                 (pgm_entry_table state (line_number state))
                                 (wrap16 (line_len + 1))))
       && (0 =? strncmp_P linebuf
                  (pgm_entry_table state (line_number state)) line_len);
     line_number := wrap8 (line_number state + 1);
     total_lines := total_lines state;
     pgm_entry_table := pgm_entry_table state |}.
Proof.
  intros Hlt. unfold string_comparator_callback.
  destruct (line_number state >=? total_lines state) eqn:E; [|reflexivity].
  apply Z.geb_le in E. lia.
Qed.

Lemma callback_wf state linebuf line_len :
  wf_state state -> wf_state (string_comparator_callback state linebuf line_len).
Proof.
  intros Hwf.
  destruct (Z_lt_le_dec (line_number state) (total_lines state)) as [Hlt|Hge].
  - rewrite callback_in_range by assumption. destruct Hwf as (Hn & Ht & Hs).
    split; [|split]; cbn [line_number total_lines pgm_entry_table];
      [unfold uint8, wrap8; apply Z.mod_pos_bound; lia | exact Ht | exact Hs].
  - rewrite callback_past_end by assumption. exact Hwf.
Qed.

Lemma feed_lines_past_end lines : forall state,
  total_lines state <= line_number state -> feed_lines state lines = state.
Proof.
  induction lines as [|[buf len] rest IH]; intros state Hge; simpl.
  - reflexivity.
  - rewrite callback_past_end by assumption. now apply IH.
Qed.

Lemma all_equal_cons ref l pairs :
  all_equal ((ref, l) :: pairs) = line_equal ref l && all_equal pairs.
Proof. reflexivity. Qed.

(** The verdict of a session, from any state: the AND of the per-line
    equalities over the lines that met a reference line. *)
Lemma feed_lines_verdict lines : forall state,
  wf_state state -> wf_lines lines ->
  is_equal (feed_lines state lines)
  = is_equal state
    && all_equal (compared (pgm_entry_table state) (line_number state)
                           (total_lines state) lines).
Proof.
  induction lines as [|[buf len] rest IH]; intros state Hwf Hls.
  - simpl. now rewrite andb_true_r.
  - inversion Hls as [|? ? Hlen Hrest]; subst. simpl in Hlen.
    cbn [feed_lines compared].
    destruct (line_number state >=? total_lines state) eqn:E.
    + apply Z.geb_le in E. rewrite callback_past_end by assumption.
      rewrite feed_lines_past_end by assumption.
      simpl. now rewrite andb_true_r.
    + rewrite Z.geb_leb in E; apply Z.leb_gt in E.
      rewrite IH by (try apply callback_wf; assumption).
      rewrite callback_in_range by assumption.
      cbn [is_equal line_number total_lines pgm_entry_table].
      destruct Hwf as (Hn & Ht & Hs).
      rewrite callback_verdict by (try apply Hs; unfold uint8 in *; try lia; assumption).
      rewrite wrap8_small by (unfold uint8 in *; lia).
      rewrite all_equal_cons. unfold line_equal. cbn [fst snd].
      now rewrite !andb_assoc.
Qed.

(** A session that stays inside the table advances the index by its length. *)
Lemma feed_lines_index lines : forall state,
  wf_state state ->
  line_number state + Z.of_nat (length lines) <= total_lines state ->
  line_number (feed_lines state lines)
  = line_number state + Z.of_nat (length lines).
Proof.
  induction lines as [|[buf len] rest IH]; intros state Hwf Hle.
  - simpl. lia.
  - cbn [feed_lines]. cbn [length] in Hle. rewrite Nat2Z.inj_succ in Hle.
    assert (Hlt : line_number state < total_lines state) by lia.
    pose proof (callback_wf state buf len Hwf) as Hwf'.
    revert Hwf'. rewrite callback_in_range by assumption. intros Hwf'.
    rewrite IH; [| exact Hwf' |]; cbn [line_number total_lines];
      destruct Hwf as (Hn & Ht & _);
      rewrite wrap8_small by (unfold uint8 in *; lia);
      cbn [length]; lia.
Qed.

Lemma compared_length table total lines : forall index,
  index <= total ->
  Z.of_nat (length (compared table index total lines))
  = Z.min (Z.of_nat (length lines)) (total - index).
Proof.
  induction lines as [|l rest IH]; intros index Hle; cbn [compared length].
  - lia.
  - destruct (index >=? total) eqn:E.
    + apply Z.geb_le in E. simpl. lia.
    + rewrite Z.geb_leb in E; apply Z.leb_gt in E.
      cbn [length]. rewrite !Nat2Z.inj_succ, IH by lia. lia.
Qed.

Lemma compared_inside table total lines : forall index,
  index + Z.of_nat (length lines) <= total ->
  all_equal (compared table index total lines) = matches_from table index lines.
Proof.
  induction lines as [|l rest IH]; intros index Hle; [reflexivity|].
  cbn [length] in Hle. rewrite Nat2Z.inj_succ in Hle.
  cbn [compared matches_from].
  destruct (index >=? total) eqn:E; [apply Z.geb_le in E; lia|].
  rewrite all_equal_cons, IH by lia. reflexivity.
Qed.

Lemma abc_state_wf verdict index : uint8 index -> wf_state (abc_state verdict index).
Proof.
  intros Hi. split; [exact Hi|]. split; [unfold uint8; simpl; lia|].
  intros i Hi3. cbn [abc_state total_lines pgm_entry_table] in *.
  assert (Hcases : i = 0 \/ i = 1 \/ i = 2) by lia.
  destruct Hcases as [-> | [-> | ->]]; vm_compute; reflexivity.
Qed.

(** C3: while the next-line index is below the declared line count, one call
    of the comparator sets the verdict to the previous verdict AND (the
    supplied length equals the reference line's length) AND (the supplied
    bytes equal the reference bytes), and moves the index on by exactly one
    whatever the outcome; the line count and the table are untouched.  No
    line is skipped after a mismatch: over a session the verdict is the
    verdict it started from AND the per-line equality of every line that met
    a reference line, and those are all lines up to the declared count. *)
Theorem comparator_compares_every_line state linebuf line_len rest :
  wf_state state -> uint16 line_len -> wf_lines rest ->
  line_number state < total_lines state ->
  let ref := pgm_entry_table state (line_number state) in
  let state' := string_comparator_callback state linebuf line_len in
  let session := (linebuf, line_len) :: rest in
  let met := compared (pgm_entry_table state) (line_number state)
                      (total_lines state) session in
  is_equal state'
  = is_equal state && (line_len =? strlen ref)
                   && bytes_eqb (supplied linebuf line_len) (chars ref)
  /\ line_number state' = line_number state + 1
  /\ total_lines state' = total_lines state
  /\ pgm_entry_table state' = pgm_entry_table state
  /\ is_equal (feed_lines state session) = is_equal state && all_equal met
  /\ Z.of_nat (length met)
     = Z.min (Z.of_nat (length session))
             (total_lines state - line_number state).
Proof.
  intros Hwf Hlen Hrest Hlt ref state' session met.
  assert (Hsession : wf_lines session) by (constructor; assumption).
  subst state'. rewrite callback_in_range by assumption.
  cbn [is_equal line_number total_lines pgm_entry_table].
  pose proof Hwf as (Hn & Ht & Hs).
  repeat split.
  - apply callback_verdict; [assumption|]. apply Hs. unfold uint8 in Hn. lia.
  - apply wrap8_small. unfold uint8 in *. lia.
  - apply feed_lines_verdict; assumption.
  - apply compared_length. lia.
Qed.

(** On the table AAA, BB, C: the session AAA, BX, C, from the start. *)
Lemma comparator_compares_every_line_witness :
  let state := abc_state true 0 in
  let linebuf := ascii_bytes "AAA"%string in
  let rest := [text_line "BX"%string; text_line "C"%string] in
  let ref := pgm_entry_table state (line_number state) in
  let state' := string_comparator_callback state linebuf 3 in
  let session := (linebuf, 3) :: rest in
  let met := compared (pgm_entry_table state) (line_number state)
                      (total_lines state) session in
  is_equal state'
  = is_equal state && (3 =? strlen ref)
                   && bytes_eqb (supplied linebuf 3) (chars ref)
  /\ line_number state' = line_number state + 1
  /\ total_lines state' = total_lines state
  /\ pgm_entry_table state' = pgm_entry_table state
  /\ is_equal (feed_lines state session) = is_equal state && all_equal met
  /\ Z.of_nat (length met)
     = Z.min (Z.of_nat (length session))
             (total_lines state - line_number state).
Proof.
  apply (comparator_compares_every_line
           (abc_state true 0) (ascii_bytes "AAA"%string) 3
           [text_line "BX"%string; text_line "C"%string]).
  - apply abc_state_wf. unfold uint8. lia.
  - unfold uint16. lia.
  - repeat constructor; vm_compute; congruence.
  - simpl. lia.
Defined.

(** The sessions of the spec on that table: the exact lines give true; a
    line of other content or other length, wherever it stands, gives false
    and the index still reaches the end; a line beyond the table is
    ignored. *)
Example abc_sessions :
  let run := fun lines =>
    let final := feed_lines (abc_state true 0) (map text_line lines) in
    (is_equal final, line_number final) in
  run ["AAA"; "BB"; "C"]%string = (true, 3)
  /\ run ["AAB"; "BB"; "C"]%string = (false, 3)
  /\ run ["AAA"; "B"; "C"]%string = (false, 3)
  /\ run ["AAA"; "BB"; "CC"]%string = (false, 3)
  /\ run ["AAAA"; "BB"; "C"]%string = (false, 3)
  /\ run ["AAA"; "BB"; "C"; "D"]%string = (true, 3)
  /\ run ["AAA"; "BB"]%string = (true, 2).
Proof. repeat split. Qed.

(** C4: once the next-line index has reached the declared line count, a call
    of the comparator changes nothing, neither verdict nor index.  And a
    session that starts with a true verdict and ends before the declared
    count, every supplied line equal to its reference line, ends with a true
    verdict and the index at the number of lines supplied: the remaining
    reference lines are never compared. *)
Theorem comparator_past_end_is_noop :
  (forall state linebuf line_len,
     total_lines state <= line_number state ->
     string_comparator_callback state linebuf line_len = state)
  /\ (forall start lines,
        wf_state start -> wf_lines lines ->
        is_equal start = true ->
        line_number start + Z.of_nat (length lines) < total_lines start ->
        matches_from (pgm_entry_table start) (line_number start) lines = true ->
        is_equal (feed_lines start lines) = true
        /\ line_number (feed_lines start lines)
           = line_number start + Z.of_nat (length lines)).
Proof.
  split.
  - intros state linebuf line_len Hge. now apply callback_past_end.
  - intros start lines Hwf Hlines Htrue Hfew Hall. split.
    + rewrite feed_lines_verdict, compared_inside, Htrue, Hall
        by (assumption || lia).
      reflexivity.
    + apply feed_lines_index; [assumption | lia].
Qed.

(** On the table AAA, BB, C: a fourth line changes nothing, and the two
    lines AAA, BB alone end with a true verdict. *)
Lemma comparator_past_end_is_noop_witness :
  string_comparator_callback (abc_state true 3) (ascii_bytes "D"%string) 1
  = abc_state true 3
  /\ is_equal (feed_lines (abc_state true 0)
                          [text_line "AAA"%string; text_line "BB"%string])
     = true
  /\ line_number (feed_lines (abc_state true 0)
                             [text_line "AAA"%string; text_line "BB"%string])
     = line_number (abc_state true 0)
       + Z.of_nat (length [text_line "AAA"%string; text_line "BB"%string]).
Proof.
  split.
  - apply (proj1 comparator_past_end_is_noop
                 (abc_state true 3) (ascii_bytes "D"%string) 1).
    simpl. lia.
  - apply (proj2 comparator_past_end_is_noop
                 (abc_state true 0)
                 [text_line "AAA"%string; text_line "BB"%string]).
    + apply abc_state_wf. unfold uint8. lia.
    + repeat constructor; vm_compute; congruence.
    + reflexivity.
    + simpl. lia.
    + vm_compute. reflexivity.
Defined.

(** C10: a false verdict is absorbing.  Whatever line is supplied, one call
    of the comparator, and so any number of calls, leaves a false verdict
    false. *)
Theorem verdict_false_is_absorbing state linebuf line_len lines :
  is_equal state = false ->
  is_equal (string_comparator_callback state linebuf line_len) = false
  /\ is_equal (feed_lines state lines) = false.
Proof.
  intros Hfalse. split.
  - unfold string_comparator_callback.
    destruct (line_number state >=? total_lines state); [assumption|].
    cbn [is_equal]. now rewrite Hfalse.
  - revert state Hfalse.
    induction lines as [|[buf len] more IH]; intros state Hfalse; [assumption|].
    cbn [feed_lines]. apply IH. unfold string_comparator_callback.
    destruct (line_number state >=? total_lines state); [assumption|].
    cbn [is_equal]. now rewrite Hfalse.
Qed.

(** After a mismatch on the first line, the matching lines BB and C do not
    bring the verdict back. *)
Lemma verdict_false_is_absorbing_witness :
  is_equal (string_comparator_callback (abc_state false 1) (ascii_bytes "BB"%string) 2)
  = false
  /\ is_equal (feed_lines (abc_state false 1) [text_line "BB"%string; text_line "C"%string])
     = false.
Proof.
  apply (verdict_false_is_absorbing
           (abc_state false 1) (ascii_bytes "BB"%string) 2
           [text_line "BB"%string; text_line "C"%string]).
  reflexivity.
Defined.

(** ** The measurement encoder *)

Lemma power_payload_bytes power_watts total_energy_kj :
  power_payload power_watts total_energy_kj
  = to_le 2 (wrap16 CPM_ACCUMULATED_ENERGY_PRESENT)
    ++ to_le 2 (if power_watts >? 0x7FFF then 0x7FFF else power_watts)
    ++ to_le 2 total_energy_kj.
Proof. reflexivity. Qed.

Lemma csc_payload_bytes
    crank_revs last_crank_ms wheel_revs last_wheel_ms power_watts energy :
  csc_payload crank_revs last_crank_ms wheel_revs last_wheel_ms
              power_watts energy
  = to_le 1 (wrap8 (Z.lor CSCM_WHEEL_REV_DATA_PRESENT
                          CSCM_CRANK_REV_DATA_PRESENT))
    ++ to_le 4 wheel_revs
    ++ to_le 2 (wrap16 (wrap32 (last_wheel_ms * 128) / 125))
    ++ to_le 2 crank_revs
    ++ to_le 2 (wrap16 (wrap32 (last_crank_ms * 128) / 125)).
Proof. reflexivity. Qed.

Section EncoderFacts.
Context `{Adafruit_BLEGatt}.

Lemma update_run this cr lc wr lw pw en :
  update cr lc wr lw pw en this =
  let first := setChar (member this cp_measurement_id) (power_payload pw en)
                       (gatt_ this) in
  let second := setChar (member this csc_measurement_id)
                        (csc_payload cr lc wr lw pw en) (snd first) in
  (fst first && fst second,
   {| gatt_ := snd second;
      gatt_calls :=
        gatt_calls this
        ++ [SetChar (member this cp_measurement_id) (power_payload pw en);
            SetChar (member this csc_measurement_id)
                    (csc_payload cr lc wr lw pw en)];
      logger := logger this;
      member := member this |}).
Proof.
  unfold update, bind, gatt_setChar, gatt_call, read, ret,
    handle_sc_control_point, power_payload, csc_payload.
  destruct (cp_measurement (repeat 0 11%nat) pw en) as [d1 b1]. cbn [fst].
  destruct (setChar (member this cp_measurement_id) (firstn (Z.to_nat b1) d1)
                    (gatt_ this)) as [r1 g1].
  cbn [gatt_ gatt_calls logger member fst snd].
  destruct (csc_measurement d1 cr lc wr lw) as [d2 b2].
  cbn [gatt_ gatt_calls logger member fst snd].
  destruct (setChar (member this csc_measurement_id)
                    (firstn (Z.to_nat b2) d2) g1) as [r2 g2].
  cbn [fst snd]. rewrite <- app_assoc. reflexivity.
Qed.
End EncoderFacts.

Lemma clamp_is_min power_watts :
  (if power_watts >? 0x7FFF then 0x7FFF else power_watts)
  = Z.min power_watts 32767.
Proof.
  destruct (power_watts >? 32767) eqn:E.
  - rewrite Z.gtb_ltb in E. apply Z.ltb_lt in E. lia.
  - rewrite Z.gtb_ltb in E. apply Z.ltb_ge in E. lia.
Qed.

Lemma power_payload_length power_watts total_energy_kj :
  length (power_payload power_watts total_energy_kj) = 6%nat.
Proof. reflexivity. Qed.

Lemma csc_payload_length
    crank_revs last_crank_ms wheel_revs last_wheel_ms power_watts energy :
  length (csc_payload crank_revs last_crank_ms wheel_revs last_wheel_ms
                      power_watts energy) = 11%nat.
Proof. reflexivity. Qed.

Lemma power_field_decoded power_watts total_energy_kj :
  uint16 power_watts ->
  pm_power (decode_power (power_payload power_watts total_energy_kj))
  = Z.min power_watts 32767.
Proof.
  intros Hp. rewrite power_payload_bytes, clamp_is_min.
  unfold decode_power. cbn [pm_power].
  set (f := wrap16 CPM_ACCUMULATED_ENERGY_PRESENT).
  set (p := Z.min power_watts 32767).
  change (slice 2 2 (to_le 2 f ++ to_le 2 p ++ to_le 2 total_energy_kj))
    with (to_le 2 p).
  apply of_le_u16. unfold uint16 in *. subst p. lia.
Qed.

Lemma decode_power_payload power_watts total_energy_kj :
  uint16 power_watts -> uint16 total_energy_kj ->
  decode_power (power_payload power_watts total_energy_kj)
  = {| pm_flags := CPM_ACCUMULATED_ENERGY_PRESENT;
       pm_power := Z.min power_watts 32767;
       pm_energy := total_energy_kj |}.
Proof.
  intros Hp He.
  pose proof (power_field_decoded power_watts total_energy_kj Hp) as Hfield.
  revert Hfield. rewrite power_payload_bytes, clamp_is_min.
  unfold decode_power. cbn [pm_power].
  set (p := Z.min power_watts 32767).
  set (e := total_energy_kj).
  intros ->. f_equal.
  change (slice 4 2 (to_le 2 (wrap16 CPM_ACCUMULATED_ENERGY_PRESENT)
                     ++ to_le 2 p ++ to_le 2 e))
    with (to_le 2 e).
  now apply of_le_u16.
Qed.

(** The conversion of the code is the exact one while the timestamp is
    below 2^25 ms, that is for the first 9 h 19 min. *)
Lemma event_time_exact_below_2_25 t :
  0 <= t < 2 ^ 25 ->
  wrap16 (wrap32 (t * 128) / 125) = spec_event_time t.
Proof.
  intros Ht. unfold spec_event_time, wrap16.
  rewrite wrap32_small by (unfold uint32; lia). reflexivity.
Qed.

(** What a receiver decodes from the Speed/Cadence payload, with the event
    times as the code computes them. *)
Lemma decode_csc_payload
    crank_revs last_crank_ms wheel_revs last_wheel_ms power_watts energy :
  uint16 crank_revs -> uint32 wheel_revs ->
  decode_csc (csc_payload crank_revs last_crank_ms wheel_revs last_wheel_ms
                          power_watts energy)
  = {| csc_flags := 0x03;
       csc_wheel_revs := wheel_revs;
       csc_wheel_time := wrap16 (wrap32 (last_wheel_ms * 128) / 125);
       csc_crank_revs := crank_revs;
       csc_crank_time := wrap16 (wrap32 (last_crank_ms * 128) / 125) |}.
Proof.
  intros Hc Hw. rewrite csc_payload_bytes. unfold decode_csc.
  set (tw := wrap16 (wrap32 (last_wheel_ms * 128) / 125)).
  set (tc := wrap16 (wrap32 (last_crank_ms * 128) / 125)).
  set (fl := wrap8 (Z.lor CSCM_WHEEL_REV_DATA_PRESENT
                          CSCM_CRANK_REV_DATA_PRESENT)).
  set (payload := to_le 1 fl ++ to_le 4 wheel_revs ++ to_le 2 tw
                  ++ to_le 2 crank_revs ++ to_le 2 tc).
  change (slice 0 1 payload) with (to_le 1 fl).
  change (slice 1 4 payload) with (to_le 4 wheel_revs).
  change (slice 5 2 payload) with (to_le 2 tw).
  change (slice 7 2 payload) with (to_le 2 crank_revs).
  change (slice 9 2 payload) with (to_le 2 tc).
  rewrite (of_le_u32 wheel_revs), (of_le_u16 crank_revs) by assumption.
  rewrite (of_le_u16 tw), (of_le_u16 tc) by apply wrap16_range.
  reflexivity.
Qed.

(** The round trip of the Speed/Cadence payload while both timestamps are
    below 2^25 ms. *)
Lemma decode_csc_payload_below_2_25
    crank_revs last_crank_ms wheel_revs last_wheel_ms power_watts energy :
  uint16 crank_revs -> uint32 wheel_revs ->
  0 <= last_crank_ms < 2 ^ 25 -> 0 <= last_wheel_ms < 2 ^ 25 ->
  decode_csc (csc_payload crank_revs last_crank_ms wheel_revs last_wheel_ms
                          power_watts energy)
  = {| csc_flags := 0x03;
       csc_wheel_revs := wheel_revs;
       csc_wheel_time := spec_event_time last_wheel_ms;
       csc_crank_revs := crank_revs;
       csc_crank_time := spec_event_time last_crank_ms |}.
Proof.
  intros Hc Hw Hlc Hlw. rewrite decode_csc_payload by assumption.
  now rewrite !event_time_exact_below_2_25 by assumption.
Qed.

(** ** The service catalog *)

Section CatalogFacts.
Context `{Adafruit_BLEGatt}.

Lemma when_println b text (this : BLECyclingPower) :
  when b (logger_println text) this
  = (tt, {| gatt_ := gatt_ this;
            gatt_calls := gatt_calls this;
            logger := logger this ++ (if b then [text] else []);
            member := member this |}).
Proof.
  destruct this, b; cbn; [reflexivity|]. now rewrite app_nil_r.
Qed.

(** One declaration: the call, the assignment, the test of the member and
    the line printed when it is zero. *)
Lemma declaration_run (c : GattCall) (m : Member) (this : BLECyclingPower)
    (call : M Z) :
  call this = (fst (declare c (gatt_ this)),
               {| gatt_ := snd (declare c (gatt_ this));
                  gatt_calls := gatt_calls this ++ [c];
                  logger := logger this;
                  member := member this |}) ->
  forall (A : Type) (k : M A),
  bind call (fun id =>
    bind (assign m id) (fun _ =>
      bind (read m) (fun id =>
        bind (when (id =? 0) (logger_println (failure_line m)))
             (fun _ => k)))) this
  = k {| gatt_ := snd (declare c (gatt_ this));
         gatt_calls := gatt_calls this ++ [c];
         logger := logger this ++ reported m (fst (declare c (gatt_ this)));
         member := override m (fst (declare c (gatt_ this))) (member this) |}.
Proof.
  intros Hcall A k. unfold bind at 1. rewrite Hcall.
  unfold bind at 1, assign at 1. cbn [gatt_ gatt_calls logger member].
  unfold bind at 1, read at 1. cbn [gatt_ gatt_calls logger member].
  unfold bind at 1. rewrite when_println. cbn [gatt_ gatt_calls logger member].
  unfold override at 1, reported.
  replace (Member_eqb m m) with true by (destruct m; reflexivity).
  reflexivity.
Qed.
Lemma declaration_run_last (c : GattCall) (m : Member) (this : BLECyclingPower)
    (call : M Z) :
  call this = (fst (declare c (gatt_ this)),
               {| gatt_ := snd (declare c (gatt_ this));
                  gatt_calls := gatt_calls this ++ [c];
                  logger := logger this;
                  member := member this |}) ->
  bind call (fun id =>
    bind (assign m id) (fun _ =>
      bind (read m) (fun id =>
        when (id =? 0) (logger_println (failure_line m))))) this
  = (tt, {| gatt_ := snd (declare c (gatt_ this));
            gatt_calls := gatt_calls this ++ [c];
            logger := logger this ++ reported m (fst (declare c (gatt_ this)));
            member := override m (fst (declare c (gatt_ this))) (member this) |}).
Proof.
  intros Hcall. unfold bind at 1. rewrite Hcall.
  unfold bind at 1, assign at 1. cbn [gatt_ gatt_calls logger member].
  unfold bind at 1, read at 1. cbn [gatt_ gatt_calls logger member].
  rewrite when_println. cbn [gatt_ gatt_calls logger member].
  unfold override at 1, reported.
  replace (Member_eqb m m) with true by (destruct m; reflexivity).
  reflexivity.
Qed.

Lemma gatt_addService_run uuid (this : BLECyclingPower) :
  gatt_addService uuid this
  = (fst (declare (AddService uuid) (gatt_ this)),
     {| gatt_ := snd (declare (AddService uuid) (gatt_ this));
        gatt_calls := gatt_calls this ++ [AddService uuid];
        logger := logger this;
        member := member this |}).
Proof.
  unfold gatt_addService, gatt_call. cbn [declare].
  now destruct (addService uuid (gatt_ this)).
Qed.

Lemma gatt_addCharacteristic_run uuid properties min_len max_len
    (this : BLECyclingPower) :
  let c := AddCharacteristic uuid properties min_len max_len in
  gatt_addCharacteristic uuid properties min_len max_len this
  = (fst (declare c (gatt_ this)),
     {| gatt_ := snd (declare c (gatt_ this));
        gatt_calls := gatt_calls this ++ [c];
        logger := logger this;
        member := member this |}).
Proof.
  unfold gatt_addCharacteristic, gatt_call. cbn [declare].
  now destruct (addCharacteristic uuid properties min_len max_len (gatt_ this)).
Qed.

Lemma answers_cons c cs g :
  answers (c :: cs) g
  = (fst (declare c g) :: fst (answers cs (snd (declare c g))),
     snd (answers cs (snd (declare c g)))).
Proof.
  cbn [answers]. destruct (declare c g) as [h g1]. cbn [fst snd].
  now destruct (answers cs g1).
Qed.

Lemma setup_cycling_power_feature_run (this : BLECyclingPower) :
  setup_cycling_power_feature this
  = (tt, {| gatt_ := snd (answers power_catalog (gatt_ this));
            gatt_calls := gatt_calls this ++ power_catalog;
            logger :=
              logger this
              ++ reports [cp_service_id; cp_feature_id; cp_measurement_id;
                          cp_sensor_location_id]
                         (fst (answers power_catalog (gatt_ this)));
            member :=
              assigned [cp_service_id; cp_feature_id; cp_measurement_id;
                        cp_sensor_location_id]
                       (fst (answers power_catalog (gatt_ this)))
                       (member this) |}).
Proof.
  unfold setup_cycling_power_feature, power_catalog.
  rewrite (declaration_run (AddService CYCLING_POWER_SERVICE_UUID)
                           cp_service_id)
    by apply gatt_addService_run.
  rewrite (declaration_run
             (AddCharacteristic CYCLING_POWER_FEATURE_CHAR_UUID
                                GATT_CHARS_PROPERTIES_READ 4 4) cp_feature_id)
    by apply gatt_addCharacteristic_run.
  rewrite (declaration_run
             (AddCharacteristic CYCLING_POWER_MEASUREMENT_CHAR_UUID
                (Z.lor GATT_CHARS_PROPERTIES_READ GATT_CHARS_PROPERTIES_NOTIFY)
                4 8) cp_measurement_id)
    by apply gatt_addCharacteristic_run.
  rewrite (declaration_run_last
             (AddCharacteristic SENSOR_LOCATION_CHAR_UUID
                                GATT_CHARS_PROPERTIES_READ 1 1)
             cp_sensor_location_id)
    by apply gatt_addCharacteristic_run.
  cbn [gatt_ gatt_calls logger member].
  rewrite !answers_cons. cbn [answers fst snd reports assigned].
  rewrite <- !app_assoc, app_nil_r. reflexivity.
Qed.

Lemma setup_cycling_speed_cadence_feature_run (this : BLECyclingPower) :
  setup_cycling_speed_cadence_feature this
  = (tt, {| gatt_ := snd (answers speed_cadence_catalog (gatt_ this));
            gatt_calls := gatt_calls this ++ speed_cadence_catalog;
            logger :=
              logger this
              ++ reports [csc_service_id; csc_feature_id; csc_measurement_id;
                          csc_sensor_location_id; sc_control_point_id]
                         (fst (answers speed_cadence_catalog (gatt_ this)));
            member :=
              assigned [csc_service_id; csc_feature_id; csc_measurement_id;
                        csc_sensor_location_id; sc_control_point_id]
                       (fst (answers speed_cadence_catalog (gatt_ this)))
                       (member this) |}).
Proof.
  unfold setup_cycling_speed_cadence_feature, speed_cadence_catalog.
  rewrite (declaration_run (AddService CYCLING_SPEED_CADENCE_SERVICE_UUID)
                           csc_service_id)
    by apply gatt_addService_run.
  rewrite (declaration_run
             (AddCharacteristic CSC_FEATURE_CHAR_UUID
                                GATT_CHARS_PROPERTIES_READ 2 2) csc_feature_id)
    by apply gatt_addCharacteristic_run.
  rewrite (declaration_run
             (AddCharacteristic CSC_MEASUREMENT_CHAR_UUID
                                GATT_CHARS_PROPERTIES_NOTIFY 11 11)
             csc_measurement_id)
    by apply gatt_addCharacteristic_run.
  rewrite (declaration_run
             (AddCharacteristic SENSOR_LOCATION_CHAR_UUID
                                GATT_CHARS_PROPERTIES_READ 1 1)
             csc_sensor_location_id)
    by apply gatt_addCharacteristic_run.
  rewrite (declaration_run_last
             (AddCharacteristic SC_CONTROL_POINT_CHAR_UUID
                (Z.lor GATT_CHARS_PROPERTIES_WRITE
                       GATT_CHARS_PROPERTIES_INDICATE) 1 5)
             sc_control_point_id)
    by apply gatt_addCharacteristic_run.
  cbn [gatt_ gatt_calls logger member].
  rewrite !answers_cons. cbn [answers fst snd reports assigned].
  rewrite <- !app_assoc, app_nil_r. reflexivity.
Qed.

Lemma answers_app cs1 cs2 g :
  answers (cs1 ++ cs2) g
  = (fst (answers cs1 g) ++ fst (answers cs2 (snd (answers cs1 g))),
     snd (answers cs2 (snd (answers cs1 g)))).
Proof.
  revert g; induction cs1 as [|c cs1 IH]; intros g.
  - cbn [app answers fst snd]. now destruct (answers cs2 g).
  - cbn [app]. rewrite !answers_cons, IH. reflexivity.
Qed.

Lemma answers_length cs : forall g,
  length (fst (answers cs g)) = length cs.
Proof.
  induction cs as [|c cs IH]; intros g; [reflexivity|].
  rewrite answers_cons. cbn [fst length]. now rewrite IH.
Qed.

Lemma reports_app ms1 : forall hs1 ms2 hs2,
  length ms1 = length hs1 ->
  reports (ms1 ++ ms2) (hs1 ++ hs2) = reports ms1 hs1 ++ reports ms2 hs2.
Proof.
  induction ms1 as [|m ms1 IH]; intros [|h hs1] ms2 hs2 Hlen;
    try discriminate; [reflexivity|].
  cbn [app reports]. rewrite IH by (injection Hlen; auto).
  now rewrite app_assoc.
Qed.

Lemma assigned_app ms1 : forall hs1 ms2 hs2 members,
  length ms1 = length hs1 ->
  assigned (ms1 ++ ms2) (hs1 ++ hs2) members
  = assigned ms2 hs2 (assigned ms1 hs1 members).
Proof.
  induction ms1 as [|m ms1 IH]; intros [|h hs1] ms2 hs2 members Hlen;
    try discriminate; [reflexivity|].
  cbn [app assigned]. apply IH. injection Hlen; auto.
Qed.

(** Bring-up never stops early: whatever the module answers, all nine
    declarations are made, every member holds the handle its declaration was
    answered with, and one line is printed per zero handle. *)
Lemma declare_services_run (this : BLECyclingPower) :
  let catalog := power_catalog ++ speed_cadence_catalog in
  declare_services this
  = (tt, {| gatt_ := snd (answers catalog (gatt_ this));
            gatt_calls := gatt_calls this ++ catalog;
            logger :=
              logger this ++ reports slots (fst (answers catalog (gatt_ this)));
            member :=
              assigned slots (fst (answers catalog (gatt_ this)))
                       (member this) |}).
Proof.
  intros catalog. subst catalog. unfold declare_services, bind.
  rewrite setup_cycling_power_feature_run,
    setup_cycling_speed_cadence_feature_run.
  cbn [gatt_ gatt_calls logger member]. rewrite answers_app. cbn [fst snd].
  change slots
    with ([cp_service_id; cp_feature_id; cp_measurement_id;
           cp_sensor_location_id]
          ++ [csc_service_id; csc_feature_id; csc_measurement_id;
              csc_sensor_location_id; sc_control_point_id]).
  rewrite reports_app, assigned_app by (now rewrite answers_length).
  now rewrite <- !app_assoc.
Qed.

(** In terms of the handles answered: the calls made, the value of the nine
    members afterwards, and the lines printed. *)
Lemma declare_services_never_aborts (this : BLECyclingPower) :
  let catalog := power_catalog ++ speed_cadence_catalog in
  let handles := fst (answers catalog (gatt_ this)) in
  let this' := snd (declare_services this) in
  gatt_calls this' = gatt_calls this ++ catalog
  /\ map (member this') slots = handles
  /\ logger this' = logger this ++ reports slots handles.
Proof.
  intros catalog handles this'. subst this'. rewrite declare_services_run.
  cbn [snd gatt_calls logger member]. fold catalog. fold handles.
  repeat split.
  pose proof (answers_length catalog (gatt_ this)) as Hlen. fold handles in Hlen.
  cbn [catalog power_catalog speed_cadence_catalog app length] in Hlen.
  do 9 (destruct handles as [|? handles]; [discriminate Hlen|]).
  destruct handles; [reflexivity | discriminate Hlen].
Qed.

End CatalogFacts.

(** ** The claims on the measurement encoder *)

(** C1: whatever the radio module and the other inputs, for an instantaneous
    power in [0, 65535] the second 16-bit field of the payload that [update]
    writes to the Power measurement characteristic reads, as an unsigned
    number, min(power, 32767); a power of at most 32767 passes unchanged. *)
Theorem power_field_is_clamped (T : Adafruit_BLEGatt) (this : BLECyclingPower)
    crank_revs last_crank_ms wheel_revs last_wheel_ms power_watts energy :
  0 <= power_watts <= 65535 ->
  let sent := power_payload power_watts energy in
  gatt_calls (snd (update crank_revs last_crank_ms wheel_revs last_wheel_ms
                          power_watts energy this))
  = gatt_calls this
    ++ [SetChar (member this cp_measurement_id) sent;
        SetChar (member this csc_measurement_id)
                (csc_payload crank_revs last_crank_ms wheel_revs last_wheel_ms
                             power_watts energy)]
  /\ pm_power (decode_power sent) = Z.min power_watts 32767
  /\ (power_watts <= 32767 -> pm_power (decode_power sent) = power_watts).
Proof.
  intros Hp sent. subst sent.
  assert (Hfield : pm_power (decode_power (power_payload power_watts energy))
                   = Z.min power_watts 32767)
    by (apply power_field_decoded; unfold uint16; lia).
  split; [|split].
  - rewrite update_run. reflexivity.
  - exact Hfield.
  - intros Hle. rewrite Hfield. lia.
Qed.

(** A power of 40000 W is written as 32767. *)
Lemma power_field_is_clamped_witness :
  let this := fresh ([], [true; true]) 0 in
  let sent := power_payload 40000 50 in
  gatt_calls (snd (update 10 1000 500 2000 40000 50 this))
  = gatt_calls this
    ++ [SetChar (member this cp_measurement_id) sent;
        SetChar (member this csc_measurement_id)
                (csc_payload 10 1000 500 2000 40000 50)]
  /\ pm_power (decode_power sent) = Z.min 40000 32767
  /\ (40000 <= 32767 -> pm_power (decode_power sent) = 40000).
Proof.
  apply (power_field_is_clamped Scripted (fresh ([], [true; true]) 0)
                                10 1000 500 2000 40000 50).
  lia.
Defined.

(** C2 fails on the code for timestamps of 2^25 ms and more: the
    multiplication by 128 is done in 32 bits and wraps before the division.
    At 33554432 ms the wheel and the crank event time are both written as 0,
    where (t * 128 / 125) mod 65536 over the integers is 18874. *)
Theorem event_time_wraps_in_32_bits :
  csc_wheel_time (decode_csc (csc_payload 10 1000 500 33554432 300 50)) = 0
  /\ csc_crank_time (decode_csc (csc_payload 10 33554432 500 2000 300 50)) = 0
  /\ spec_event_time 33554432 = 18874.
Proof. repeat split; vm_compute; reflexivity. Qed.

(** C5: one update cycle returns true exactly when the write of the Power
    measurement and the write of the Speed/Cadence measurement both
    succeeded.  [update] always returns, and it makes both writes, the
    second one on the module as the first one left it, whatever the first
    one answered; nothing else is called, printed or assigned. *)
Theorem update_succeeds_iff_both_writes (T : Adafruit_BLEGatt)
    (this : BLECyclingPower)
    crank_revs last_crank_ms wheel_revs last_wheel_ms power_watts energy :
  let power_sent := power_payload power_watts energy in
  let csc_sent := csc_payload crank_revs last_crank_ms wheel_revs
                              last_wheel_ms power_watts energy in
  let power_write :=
    setChar (member this cp_measurement_id) power_sent (gatt_ this) in
  let csc_write :=
    setChar (member this csc_measurement_id) csc_sent (snd power_write) in
  let outcome := update crank_revs last_crank_ms wheel_revs last_wheel_ms
                        power_watts energy this in
  (fst outcome = true <-> fst power_write = true /\ fst csc_write = true)
  /\ gatt_calls (snd outcome)
     = gatt_calls this
       ++ [SetChar (member this cp_measurement_id) power_sent;
           SetChar (member this csc_measurement_id) csc_sent]
  /\ gatt_ (snd outcome) = snd csc_write
  /\ logger (snd outcome) = logger this
  /\ member (snd outcome) = member this.
Proof.
  cbv zeta. rewrite update_run. cbn [fst snd gatt_ gatt_calls logger member].
  split; [apply andb_true_iff | repeat split].
Qed.

(** C7: for every snapshot the Power payload is six bytes whose three
    little-endian 16-bit fields decode to the flags word with the
    accumulated-energy-present bit, bit 5, and no other bit set, the clamped
    power, and the energy as supplied; power 300 and energy 50 decode to
    flags 0x0020, power 300, energy 50. *)
Theorem power_payload_round_trip (T : Adafruit_BLEGatt) (this : BLECyclingPower)
    crank_revs last_crank_ms wheel_revs last_wheel_ms power_watts energy :
  uint16 power_watts -> uint16 energy ->
  let sent := power_payload power_watts energy in
  gatt_calls (snd (update crank_revs last_crank_ms wheel_revs last_wheel_ms
                          power_watts energy this))
  = gatt_calls this
    ++ [SetChar (member this cp_measurement_id) sent;
        SetChar (member this csc_measurement_id)
                (csc_payload crank_revs last_crank_ms wheel_revs last_wheel_ms
                             power_watts energy)]
  /\ length sent = 6%nat
  /\ decode_power sent
     = {| pm_flags := CPM_ACCUMULATED_ENERGY_PRESENT;
          pm_power := Z.min power_watts 32767;
          pm_energy := energy |}
  /\ bits_set 16 (pm_flags (decode_power sent)) = [5]
  /\ decode_power (power_payload 300 50)
     = {| pm_flags := 0x0020; pm_power := 300; pm_energy := 50 |}.
Proof.
  intros Hp He sent. subst sent.
  rewrite decode_power_payload by assumption. cbn [pm_flags].
  repeat split.
  rewrite update_run. reflexivity.
Qed.

(** The snapshot of the spec's end-to-end scenario. *)
Lemma power_payload_round_trip_witness :
  let this := fresh ([], [true; true]) 0 in
  let sent := power_payload 300 50 in
  gatt_calls (snd (update 10 1000 500 2000 300 50 this))
  = gatt_calls this
    ++ [SetChar (member this cp_measurement_id) sent;
        SetChar (member this csc_measurement_id)
                (csc_payload 10 1000 500 2000 300 50)]
  /\ length sent = 6%nat
  /\ decode_power sent
     = {| pm_flags := CPM_ACCUMULATED_ENERGY_PRESENT;
          pm_power := Z.min 300 32767;
          pm_energy := 50 |}
  /\ bits_set 16 (pm_flags (decode_power sent)) = [5]
  /\ decode_power (power_payload 300 50)
     = {| pm_flags := 0x0020; pm_power := 300; pm_energy := 50 |}.
Proof.
  apply (power_payload_round_trip Scripted (fresh ([], [true; true]) 0)
                                  10 1000 500 2000 300 50);
    unfold uint16; lia.
Defined.

(** C8 fails on the code through the defect of C2.  With the last crank
    event at 40000000 ms, flags, revolution counts and the wheel event time
    decode as the claim says, but the crank event time decodes to 46661
    where 40000000 * 128 / 125 narrowed to 16 bits is 0. *)
Theorem csc_round_trip_breaks_at_2_25_ms :
  decode_csc (csc_payload 10 40000000 500 2000 300 50)
  = {| csc_flags := 0x03;
       csc_wheel_revs := 500;
       csc_wheel_time := 2048;
       csc_crank_revs := 10;
       csc_crank_time := 46661 |}
  /\ spec_event_time 2000 = 2048
  /\ spec_event_time 40000000 = 0.
Proof. repeat split; vm_compute; reflexivity. Qed.

(** The scenario of the spec, both timestamps small: flags 0x03, 500 wheel
    revolutions at 2048, 10 crank revolutions at 1024. *)
Example csc_payload_scenario :
  decode_csc (csc_payload 10 1000 500 2000 300 50)
  = {| csc_flags := 0x03;
       csc_wheel_revs := 500;
       csc_wheel_time := 2048;
       csc_crank_revs := 10;
       csc_crank_time := 1024 |}
  /\ bits_set 8 0x03 = [0; 1].
Proof. split; vm_compute; reflexivity. Qed.

(** On the scripted module, each pair of write results gives their AND, and
    both writes are made. *)
Example update_on_scripted_module (first second : bool) :
  let this := fresh ([], [first; second]) 0 in
  let outcome := update 10 1000 500 2000 300 50 this in
  fst outcome = first && second
  /\ gatt_calls (snd outcome)
     = [SetChar 0 [32; 0; 44; 1; 50; 0];
        SetChar 0 [3; 244; 1; 0; 0; 0; 8; 10; 0; 0; 4]].
Proof. destruct first, second; split; vm_compute; reflexivity. Qed.

(** ** The claims on the service catalog *)

(** Every failure line but the one of the Power profile's Sensor Location
    names the declaration that failed. *)
Lemma failure_lines_named m :
  names (failure_line m) m = negb (Member_eqb m cp_sensor_location_id).
Proof. destruct m; vm_compute; reflexivity. Qed.

(** C6 fails on the code in one slot.  When only the Sensor Location
    declaration of the Power profile is answered with a zero handle, all nine
    declarations are made and the member is zero, but the one line printed
    names the Measurement characteristic, whose handle is valid; the same
    failure in the Speed/Cadence profile is printed under its own name. *)
Theorem power_sensor_location_failure_is_misnamed :
  let this :=
    snd (declare_services (fresh ([1; 2; 3; 0; 5; 6; 7; 8; 9], []) 0)) in
  let sibling :=
    snd (declare_services (fresh ([1; 2; 3; 4; 5; 6; 7; 0; 9], []) 0)) in
  gatt_calls this = power_catalog ++ speed_cadence_catalog
  /\ map (member this) slots = [1; 2; 3; 0; 5; 6; 7; 8; 9]
  /\ logger this
     = ["Could not add Characteristic CYCLING_POWER_MEASUREMENT_CHAR_UUID"%string]
  /\ map (fun text => names text cp_sensor_location_id) (logger this) = [false]
  /\ map (fun text => names text cp_measurement_id) (logger this) = [true]
  /\ logger sibling
     = ["Could not add the characteristic SENSOR_LOCATION_CHAR_UUID"%string]
  /\ map (fun text => names text csc_sensor_location_id) (logger sibling)
     = [true].
Proof. repeat split; vm_compute; reflexivity. Qed.

(** C9: bring-up makes the declarations in this order, on any radio module
    and whatever it answers.  Power profile: the service, a read-only Feature
    characteristic of length 4 to 4, a read+notify Measurement characteristic
    of length 4 to 8, a read-only Sensor Location characteristic of length
    1 to 1.  Speed/Cadence profile: the service, a read-only Feature
    characteristic of length 2 to 2, a notify-only Measurement characteristic
    of length 11 to 11, a read-only Sensor Location characteristic of length
    1 to 1, a write+indicate Control Point characteristic of length 1 to 5. *)
Theorem catalog_is_declared_in_order (T : Adafruit_BLEGatt)
    (this : BLECyclingPower) :
  let power := snd (setup_cycling_power_feature this) in
  let both := snd (declare_services this) in
  gatt_calls power = gatt_calls this ++ power_catalog
  /\ gatt_calls (snd (setup_cycling_speed_cadence_feature power))
     = gatt_calls power ++ speed_cadence_catalog
  /\ gatt_calls both = gatt_calls this ++ power_catalog ++ speed_cadence_catalog
  /\ declarations power_catalog
     = [Service CYCLING_POWER_SERVICE_UUID;
        Characteristic CYCLING_POWER_FEATURE_CHAR_UUID (Some [Read]) 4 4;
        Characteristic CYCLING_POWER_MEASUREMENT_CHAR_UUID
                       (Some [Read; Notify]) 4 8;
        Characteristic SENSOR_LOCATION_CHAR_UUID (Some [Read]) 1 1]
  /\ declarations speed_cadence_catalog
     = [Service CYCLING_SPEED_CADENCE_SERVICE_UUID;
        Characteristic CSC_FEATURE_CHAR_UUID (Some [Read]) 2 2;
        Characteristic CSC_MEASUREMENT_CHAR_UUID (Some [Notify]) 11 11;
        Characteristic SENSOR_LOCATION_CHAR_UUID (Some [Read]) 1 1;
        Characteristic SC_CONTROL_POINT_CHAR_UUID (Some [Write; Indicate]) 1 5].
Proof.
  cbv zeta. rewrite declare_services_run, !setup_cycling_power_feature_run,
    setup_cycling_speed_cadence_feature_run.
  cbn [snd gatt_calls]. repeat split.
Qed.

(** * Part III: further properties of the code *)

(** ** The line comparator *)

Lemma feed_lines_app lines1 : forall state lines2,
  feed_lines state (lines1 ++ lines2)
  = feed_lines (feed_lines state lines1) lines2.
Proof.
  induction lines1 as [|[buf len] rest IH]; intros state lines2; [reflexivity|].
  cbn [app feed_lines]. apply IH.
Qed.

Lemma callback_frame state linebuf line_len :
  total_lines (string_comparator_callback state linebuf line_len)
  = total_lines state
  /\ pgm_entry_table (string_comparator_callback state linebuf line_len)
     = pgm_entry_table state.
Proof.
  unfold string_comparator_callback.
  destruct (line_number state >=? total_lines state); split; reflexivity.
Qed.

(** Where a session ends: the index, the count and the table. *)
Lemma feed_lines_end lines : forall state,
  uint8 (line_number state) -> uint8 (total_lines state) ->
  line_number state <= total_lines state ->
  let final := feed_lines state lines in
  line_number final
  = Z.min (total_lines state) (line_number state + Z.of_nat (length lines))
  /\ total_lines final = total_lines state
  /\ pgm_entry_table final = pgm_entry_table state.
Proof.
  induction lines as [|[buf len] rest IH]; intros state Hn Ht Hle.
  - cbn [feed_lines length]. repeat split. cbn [Z.of_nat]. lia.
  - cbn [feed_lines length]. rewrite Nat2Z.inj_succ.
    destruct (Z_lt_le_dec (line_number state) (total_lines state)) as [Hlt|Hge].
    + pose proof (callback_in_range state buf len Hlt) as Hstep.
      assert (Hwrap : wrap8 (line_number state + 1) = line_number state + 1)
        by (apply wrap8_small; unfold uint8 in *; lia).
      specialize (IH (string_comparator_callback state buf len)).
      rewrite Hstep in IH |- *.
      cbn [line_number total_lines pgm_entry_table] in IH |- *.
      rewrite Hwrap in IH |- *.
      destruct IH as (Hi & Hc & Htab);
        [unfold uint8 in *; lia | assumption | lia |].
      cbv zeta. rewrite Hi, Hc, Htab. repeat split. lia.
    + rewrite callback_past_end by assumption.
      rewrite feed_lines_past_end by assumption. repeat split. lia.
Qed.

(** X1: the index saturates at the declared count.  From a state whose
    counters are [uint8_t] values with the index at most the count, a session
    of any lines ends with the index at min(count, index + number of lines):
    [line_number++] never wraps and never passes [total_lines], so no entry
    beyond the declared ones is read; the count and the table are never
    written. *)
Theorem comparator_index_saturates lines state :
  uint8 (line_number state) -> uint8 (total_lines state) ->
  line_number state <= total_lines state ->
  let final := feed_lines state lines in
  line_number final
  = Z.min (total_lines state) (line_number state + Z.of_nat (length lines))
  /\ total_lines final = total_lines state
  /\ pgm_entry_table final = pgm_entry_table state.
Proof. apply feed_lines_end. Qed.

Lemma comparator_index_saturates_witness :
  let state := abc_state true 1 in
  let lines := map text_line ["x"; "y"; "z"; "w"]%string in
  let final := feed_lines state lines in
  line_number final
  = Z.min (total_lines state) (line_number state + Z.of_nat (length lines))
  /\ total_lines final = total_lines state
  /\ pgm_entry_table final = pgm_entry_table state.
Proof.
  apply (comparator_index_saturates
           (map text_line ["x"; "y"; "z"; "w"]%string) (abc_state true 1));
    unfold uint8; simpl; lia.
Defined.

(** X2: lines beyond the table are ignored.  Once a session has supplied as
    many lines as the table has left, whatever is supplied afterwards changes
    neither the verdict nor the index. *)
Theorem comparator_ignores_lines_past_the_table state lines more :
  uint8 (line_number state) -> uint8 (total_lines state) ->
  line_number state <= total_lines state ->
  total_lines state <= line_number state + Z.of_nat (length lines) ->
  feed_lines state (lines ++ more) = feed_lines state lines.
Proof.
  intros Hn Ht Hle Hfull. rewrite feed_lines_app.
  pose proof (feed_lines_end lines state Hn Ht Hle) as Hend.
  cbv zeta in Hend. destruct Hend as (Hi & Hc & _).
  apply feed_lines_past_end. rewrite Hi, Hc. lia.
Qed.

Lemma comparator_ignores_lines_past_the_table_witness :
  feed_lines (abc_state true 0)
             (map text_line ["AAA"; "BB"; "C"]%string
              ++ map text_line ["D"; "E"]%string)
  = feed_lines (abc_state true 0) (map text_line ["AAA"; "BB"; "C"]%string).
Proof.
  apply (comparator_ignores_lines_past_the_table
           (abc_state true 0) (map text_line ["AAA"; "BB"; "C"]%string)
           (map text_line ["D"; "E"]%string));
    unfold uint8; simpl; lia.
Defined.



Lemma chars_no_nul s : ~ In 0 (chars s).
Proof.
  induction s as [|c rest IH]; cbn [chars]; [intros []|].
  destruct (c =? 0) eqn:E; [intros []|].
  apply Z.eqb_neq in E. intros [H|H]; [congruence | now apply IH].
Qed.

(** X4: a line with a NUL byte among its [line_len] bytes, or whose buffer
    ends before [line_len] bytes, never matches: whatever the reference line
    is, the verdict after the call is false. *)
Theorem comparator_rejects_short_strings state linebuf line_len :
  wf_state state -> uint16 line_len ->
  line_number state < total_lines state ->
  In 0 (supplied linebuf line_len) \/ Z.of_nat (length linebuf) < line_len ->
  is_equal (string_comparator_callback state linebuf line_len) = false.
Proof.
  intros (Hn & Ht & Hs) Hlen Hlt Hshort.
  rewrite callback_in_range by assumption. cbn [is_equal].
  rewrite callback_verdict
    by (try assumption; apply Hs; unfold uint8 in Hn; lia).
  destruct (line_len =? strlen (pgm_entry_table state (line_number state)))
    eqn:Elen; [|now rewrite andb_false_r].
  destruct (bytes_eqb (supplied linebuf line_len)
                      (chars (pgm_entry_table state (line_number state))))
    eqn:Ebytes; [|now rewrite andb_false_r].
  exfalso. apply bytes_eqb_eq in Ebytes. apply Z.eqb_eq in Elen.
  destruct Hshort as [Hnul|Hend].
  - rewrite Ebytes in Hnul. exact (chars_no_nul _ Hnul).
  - apply (f_equal (@length Z)) in Ebytes. unfold supplied in Ebytes.
    rewrite length_firstn in Ebytes. unfold strlen in Elen.
    unfold uint16 in Hlen. lia.
Qed.

Lemma comparator_rejects_short_strings_witness :
  is_equal (string_comparator_callback (abc_state true 1)
                                       [66; 0; 66] 3) = false.
Proof.
  apply (comparator_rejects_short_strings (abc_state true 1) [66; 0; 66] 3).
  - apply abc_state_wf. unfold uint8. lia.
  - unfold uint16. lia.
  - simpl. lia.
  - left. simpl. tauto.
Defined.




Lemma plain_chars entry :
  plain entry = true ->
  chars entry = entry /\ Z.of_nat (length entry) < 65535.
Proof.
  unfold plain. rewrite andb_true_iff, Z.ltb_lt. intros [Hnz Hlen].
  split; [|exact Hlen]. clear Hlen.
  induction entry as [|c rest IH]; [reflexivity|].
  cbn [forallb] in Hnz. apply andb_true_iff in Hnz as [Hc Hrest].
  cbn [chars]. apply negb_true_iff in Hc. rewrite Hc. now rewrite IH.
Qed.

Lemma bytes_eqb_refl a : bytes_eqb a a = true.
Proof. now apply bytes_eqb_eq. Qed.

Lemma line_equal_own entry :
  plain entry = true ->
  line_equal entry (entry, Z.of_nat (length entry)) = true.
Proof.
  intros Hplain. destruct (plain_chars entry Hplain) as [Hchars _].
  unfold line_equal, strlen, supplied. cbn [fst snd].
  rewrite Hchars, Z.eqb_refl, Nat2Z.id, firstn_all. apply bytes_eqb_refl.
Qed.

Lemma matches_own_lines before : forall rest,
  forallb plain rest = true ->
  matches_from (table_of (before ++ rest)) (Z.of_nat (length before))
               (own_lines rest) = true.
Proof.
  intros rest. revert before.
  induction rest as [|entry rest IH]; intros before Hplain; [reflexivity|].
  cbn [forallb] in Hplain. apply andb_true_iff in Hplain as [He Hrest].
  cbn [own_lines map matches_from]. unfold table_of at 1.
  rewrite Nat2Z.id, nth_middle, line_equal_own by assumption.
  cbn [andb]. specialize (IH (before ++ [entry]) Hrest).
  rewrite <- app_assoc, length_app in IH. cbn [app length] in IH.
  rewrite Nat2Z.inj_add in IH. exact IH.
Qed.

Lemma start_on_wf entries :
  forallb plain entries = true -> (length entries <= 255)%nat ->
  wf_state (start_on entries).
Proof.
  intros Hplain Hcount. unfold wf_state, start_on, uint8.
  cbn [line_number total_lines pgm_entry_table].
  split; [lia|]. split; [lia|].
  intros i Hi. unfold table_of.
  assert (Hin : In (nth (Z.to_nat i) entries []) entries)
    by (apply nth_In; lia).
  rewrite forallb_forall in Hplain.
  destruct (plain_chars _ (Hplain _ Hin)) as [Hchars Hlen].
  unfold strlen. now rewrite Hchars.
Qed.

(** X6: a table matches itself.  On a table of at most 255 entries, none
    with a NUL byte inside and none of 65535 characters or more, the session
    that supplies the entries themselves, each with its own length, ends with
    a true verdict and the index at the number of entries. *)
Theorem comparator_accepts_its_own_table entries :
  forallb plain entries = true -> (length entries <= 255)%nat ->
  let final := feed_lines (start_on entries) (own_lines entries) in
  is_equal final = true
  /\ line_number final = Z.of_nat (length entries).
Proof.
  intros Hplain Hcount final. subst final.
  pose proof (start_on_wf entries Hplain Hcount) as Hwf.
  assert (Hlines : wf_lines (own_lines entries)).
  { unfold wf_lines, own_lines. rewrite Forall_map. apply Forall_forall.
    intros entry Hin. cbn [snd]. rewrite forallb_forall in Hplain.
    destruct (plain_chars _ (Hplain _ Hin)) as [_ Hlen].
    unfold uint16. lia. }
  assert (Hcount' : length (own_lines entries) = length entries)
    by apply length_map.
  split.
  - rewrite feed_lines_verdict by assumption.
    cbn [start_on is_equal line_number total_lines pgm_entry_table andb].
    rewrite compared_inside by (rewrite Hcount'; lia).
    exact (matches_own_lines [] entries Hplain).
  - pose proof (feed_lines_end (own_lines entries)
                  (start_on entries)) as Hend.
    cbv zeta in Hend.
    cbn [start_on line_number total_lines pgm_entry_table] in Hend.
    destruct Hend as (Hi & _); [unfold uint8; lia .. |].
    cbn [start_on] in Hi |- *. rewrite Hi, Hcount'. lia.
Qed.

Lemma comparator_accepts_its_own_table_witness :
  let entries := map ascii_bytes ["AAA"; "BB"; "C"]%string in
  let final := feed_lines (start_on entries) (own_lines entries) in
  is_equal final = true
  /\ line_number final = Z.of_nat (length entries).
Proof.
  apply (comparator_accepts_its_own_table
           (map ascii_bytes ["AAA"; "BB"; "C"]%string)).
  - reflexivity.
  - simpl. lia.
Defined.

(** ** The buffer macro *)

Lemma to_le_length n : forall v, length (to_le n v) = n.
Proof.
  induction n as [|k IH]; intros v; cbn [to_le length]; [|rewrite IH];
    reflexivity.
Qed.

(** X7: [APPEND_BUFFER] inside the array.  When the [size] bytes at [base]
    lie inside the buffer, the macro keeps the buffer's length, moves [base]
    on by [size], stores the field so that it reads back little-endian as
    [field mod 256^size], and changes no byte before [base] or from
    [base + size] on. *)
Theorem append_buffer_round_trip buffer base size field :
  0 <= base ->
  base + Z.of_nat size <= Z.of_nat (length buffer) ->
  Z.of_nat (length buffer) <= 255 ->
  let written := APPEND_BUFFER buffer base size field in
  length (fst written) = length buffer
  /\ snd written = base + Z.of_nat size
  /\ of_le (slice (Z.to_nat base) size (fst written))
     = field mod 256 ^ Z.of_nat size
  /\ firstn (Z.to_nat base) (fst written) = firstn (Z.to_nat base) buffer
  /\ skipn (Z.to_nat base + size) (fst written)
     = skipn (Z.to_nat base + size) buffer.
Proof.
  intros Hbase Hfit Hsmall written. subst written.
  unfold APPEND_BUFFER, memcpy. cbn [fst snd]. rewrite to_le_length.
  set (b := Z.to_nat base).
  assert (Hb : (b + size <= length buffer)%nat) by (subst b; lia).
  assert (Hpre : length (firstn b buffer) = b)
    by (rewrite length_firstn; lia).
  repeat split.
  - rewrite !length_app, Hpre, to_le_length, length_skipn. lia.
  - apply wrap8_small. unfold uint8. lia.
  - unfold slice. rewrite skipn_app, Hpre, Nat.sub_diag.
    rewrite (skipn_all2 (firstn b buffer)) by lia. cbn [skipn app].
    rewrite firstn_app, to_le_length, Nat.sub_diag. cbn [firstn].
    rewrite app_nil_r, <- (to_le_length size field) at 1.
    rewrite firstn_all. apply of_le_to_le.
  - rewrite firstn_app, Hpre, Nat.sub_diag. cbn [firstn].
    rewrite app_nil_r. apply firstn_all2. lia.
  - rewrite app_assoc, skipn_app.
    rewrite (skipn_all2 (firstn b buffer ++ to_le size field))
      by (rewrite length_app, Hpre, to_le_length; lia).
    rewrite length_app, Hpre, to_le_length, Nat.sub_diag. reflexivity.
Qed.

Lemma append_buffer_round_trip_witness :
  let written := APPEND_BUFFER (repeat 0 11%nat) 5 2 2048 in
  length (fst written) = length (repeat 0 11%nat)
  /\ snd written = 5 + Z.of_nat 2
  /\ of_le (slice (Z.to_nat 5) 2 (fst written)) = 2048 mod 256 ^ Z.of_nat 2
  /\ firstn (Z.to_nat 5) (fst written) = firstn (Z.to_nat 5) (repeat 0 11%nat)
  /\ skipn (Z.to_nat 5 + 2) (fst written)
     = skipn (Z.to_nat 5 + 2) (repeat 0 11%nat).
Proof.
  apply (append_buffer_round_trip (repeat 0 11%nat) 5 2 2048); simpl; lia.
Defined.

(** ** The measurement encoder *)

Lemma csc_time_fields
    crank_revs last_crank_ms wheel_revs last_wheel_ms power_watts energy :
  let decoded :=
    decode_csc (csc_payload crank_revs last_crank_ms wheel_revs last_wheel_ms
                            power_watts energy) in
  csc_wheel_time decoded = wrap16 (wrap32 (last_wheel_ms * 128) / 125)
  /\ csc_crank_time decoded = wrap16 (wrap32 (last_crank_ms * 128) / 125).
Proof.
  cbv zeta. rewrite csc_payload_bytes. unfold decode_csc.
  cbn [csc_wheel_time csc_crank_time].
  set (tw := wrap16 (wrap32 (last_wheel_ms * 128) / 125)).
  set (tc := wrap16 (wrap32 (last_crank_ms * 128) / 125)).
  set (fl := wrap8 (Z.lor CSCM_WHEEL_REV_DATA_PRESENT
                          CSCM_CRANK_REV_DATA_PRESENT)).
  set (payload := to_le 1 fl ++ to_le 4 wheel_revs ++ to_le 2 tw
                  ++ to_le 2 crank_revs ++ to_le 2 tc).
  change (slice 5 2 payload) with (to_le 2 tw).
  change (slice 9 2 payload) with (to_le 2 tc).
  split; apply of_le_u16, wrap16_range.
Qed.

(** X8: every payload fits its characteristic.  Whatever the snapshot and
    the radio module, [update] writes six bytes to the Power measurement and
    eleven to the Speed/Cadence measurement, and both lengths are within the
    bounds the characteristics were declared with (4 to 8, and 11 to 11). *)
Theorem payloads_fit_declared_bounds (T : Adafruit_BLEGatt)
    (this : BLECyclingPower)
    crank_revs last_crank_ms wheel_revs last_wheel_ms power_watts energy :
  let power_sent := power_payload power_watts energy in
  let csc_sent := csc_payload crank_revs last_crank_ms wheel_revs
                              last_wheel_ms power_watts energy in
  gatt_calls (snd (update crank_revs last_crank_ms wheel_revs last_wheel_ms
                          power_watts energy this))
  = gatt_calls this
    ++ [SetChar (member this cp_measurement_id) power_sent;
        SetChar (member this csc_measurement_id) csc_sent]
  /\ length power_sent = 6%nat
  /\ length csc_sent = 11%nat
  /\ fits power_catalog CYCLING_POWER_MEASUREMENT_CHAR_UUID power_sent = true
  /\ fits speed_cadence_catalog CSC_MEASUREMENT_CHAR_UUID csc_sent = true.
Proof.
  cbv zeta. rewrite update_run. cbn [snd gatt_calls]. repeat split.
Qed.

(** X9: the shared array leaks nothing.  The two messages are built one
    after the other in the same array, yet the bytes written to the
    Speed/Cadence measurement do not depend on power and energy, and the
    bytes written to the Power measurement do not depend on the revolution
    counts and timestamps. *)
Theorem payloads_are_independent (T : Adafruit_BLEGatt) (this : BLECyclingPower)
    crank_revs last_crank_ms wheel_revs last_wheel_ms power_watts energy
    crank_revs' last_crank_ms' wheel_revs' last_wheel_ms' power_watts' energy' :
  let written := fun cr lc wr lw pw en =>
    skipn (length (gatt_calls this))
          (gatt_calls (snd (update cr lc wr lw pw en this))) in
  nth_error (written crank_revs last_crank_ms wheel_revs last_wheel_ms
                     power_watts energy) 1
  = nth_error (written crank_revs last_crank_ms wheel_revs last_wheel_ms
                       power_watts' energy') 1
  /\ nth_error (written crank_revs last_crank_ms wheel_revs last_wheel_ms
                        power_watts energy) 0
     = nth_error (written crank_revs' last_crank_ms' wheel_revs' last_wheel_ms'
                          power_watts energy) 0.
Proof.
  cbv beta zeta. rewrite !update_run. cbn [snd gatt_calls].
  rewrite !skipn_app, !Nat.sub_diag, !skipn_all. cbn [skipn app nth_error].
  rewrite !csc_payload_bytes. split; reflexivity.
Qed.

(** X10: the Speed/Cadence round trip, for every snapshot.  With a 16-bit
    crank count and a 32-bit wheel count, the payload [update] writes
    decodes to flags 0x03, the two counts unchanged, and for each timestamp
    [t] the event time [((t * 128) mod 2^32 / 125) mod 2^16]. *)
Theorem csc_payload_round_trip (T : Adafruit_BLEGatt) (this : BLECyclingPower)
    crank_revs last_crank_ms wheel_revs last_wheel_ms power_watts energy :
  uint16 crank_revs -> uint32 wheel_revs ->
  let sent := csc_payload crank_revs last_crank_ms wheel_revs last_wheel_ms
                          power_watts energy in
  gatt_calls (snd (update crank_revs last_crank_ms wheel_revs last_wheel_ms
                          power_watts energy this))
  = gatt_calls this
    ++ [SetChar (member this cp_measurement_id)
                (power_payload power_watts energy);
        SetChar (member this csc_measurement_id) sent]
  /\ decode_csc sent
     = {| csc_flags := 0x03;
          csc_wheel_revs := wheel_revs;
          csc_wheel_time := ((last_wheel_ms * 128) mod 2 ^ 32 / 125) mod 2 ^ 16;
          csc_crank_revs := crank_revs;
          csc_crank_time := ((last_crank_ms * 128) mod 2 ^ 32 / 125) mod 2 ^ 16
       |}
  /\ bits_set 8 (csc_flags (decode_csc sent)) = [0; 1].
Proof.
  intros Hc Hw sent. subst sent. rewrite update_run. cbn [snd gatt_calls].
  rewrite decode_csc_payload by assumption. repeat split.
Qed.

Lemma csc_payload_round_trip_witness :
  let this := fresh ([], [true; true]) 0 in
  let sent := csc_payload 65535 4000000000 4294967295 2000 300 50 in
  gatt_calls (snd (update 65535 4000000000 4294967295 2000 300 50 this))
  = gatt_calls this
    ++ [SetChar (member this cp_measurement_id) (power_payload 300 50);
        SetChar (member this csc_measurement_id) sent]
  /\ decode_csc sent
     = {| csc_flags := 0x03;
          csc_wheel_revs := 4294967295;
          csc_wheel_time := ((2000 * 128) mod 2 ^ 32 / 125) mod 2 ^ 16;
          csc_crank_revs := 65535;
          csc_crank_time := ((4000000000 * 128) mod 2 ^ 32 / 125) mod 2 ^ 16
       |}
  /\ bits_set 8 (csc_flags (decode_csc sent)) = [0; 1].
Proof.
  apply (csc_payload_round_trip Scripted (fresh ([], [true; true]) 0)
                                65535 4000000000 4294967295 2000 300 50);
    [unfold uint16 | unfold uint32]; lia.
Defined.

(** X11: event times in the first 9 h 19 min.  For a timestamp [t] below
    2^25 ms, wheel or crank, the event time written is
    [(t * 128 / 125) mod 65536] with exact floor division: the time in
    1/1024 s, modulo 2^16. *)
Theorem event_time_exact_before_overflow
    crank_revs last_crank_ms wheel_revs last_wheel_ms power_watts energy :
  0 <= last_crank_ms < 2 ^ 25 -> 0 <= last_wheel_ms < 2 ^ 25 ->
  let decoded :=
    decode_csc (csc_payload crank_revs last_crank_ms wheel_revs last_wheel_ms
                            power_watts energy) in
  csc_wheel_time decoded = (last_wheel_ms * 128 / 125) mod 65536
  /\ csc_crank_time decoded = (last_crank_ms * 128 / 125) mod 65536.
Proof.
  intros Hc Hw decoded. subst decoded.
  destruct (csc_time_fields crank_revs last_crank_ms wheel_revs last_wheel_ms
                            power_watts energy) as [Hwheel Hcrank].
  rewrite Hwheel, Hcrank, !event_time_exact_below_2_25 by assumption.
  split; reflexivity.
Qed.

Lemma event_time_exact_before_overflow_witness :
  let decoded := decode_csc (csc_payload 10 33554431 500 63999 300 50) in
  csc_wheel_time decoded = (63999 * 128 / 125) mod 65536
  /\ csc_crank_time decoded = (33554431 * 128 / 125) mod 65536.
Proof.
  apply (event_time_exact_before_overflow 10 33554431 500 63999 300 50); lia.
Defined.

Lemma event_time_period t :
  0 <= t -> t + 64000 < 2 ^ 25 ->
  wrap16 (wrap32 ((t + 64000) * 128) / 125) = wrap16 (wrap32 (t * 128) / 125).
Proof.
  intros H0 Hend. unfold wrap16.
  rewrite !wrap32_small by (unfold uint32; lia).
  replace ((t + 64000) * 128) with (t * 128 + 65536 * 125) by lia.
  rewrite Z.div_add by lia.
  change (2 ^ 16) with 65536.
  rewrite <- (Z.mul_1_l 65536) at 1. apply Z.mod_add. lia.
Qed.

(** X12: the event time rolls over every 64 s.  Before the overflow at
    2^25 ms, timestamps 64000 ms apart are written as the same wheel event
    time and the same crank event time. *)
Theorem event_time_rolls_over_every_64_s
    crank_revs wheel_revs power_watts energy t_wheel t_crank :
  0 <= t_wheel -> t_wheel + 64000 < 2 ^ 25 ->
  0 <= t_crank -> t_crank + 64000 < 2 ^ 25 ->
  let at_ := fun crank wheel =>
    decode_csc (csc_payload crank_revs crank wheel_revs wheel
                            power_watts energy) in
  csc_wheel_time (at_ (t_crank + 64000) (t_wheel + 64000))
  = csc_wheel_time (at_ t_crank t_wheel)
  /\ csc_crank_time (at_ (t_crank + 64000) (t_wheel + 64000))
     = csc_crank_time (at_ t_crank t_wheel).
Proof.
  intros Hw0 Hw1 Hc0 Hc1 at_. subst at_. cbv beta.
  destruct (csc_time_fields crank_revs (t_crank + 64000) wheel_revs
                            (t_wheel + 64000) power_watts energy) as [-> ->].
  destruct (csc_time_fields crank_revs t_crank wheel_revs t_wheel
                            power_watts energy) as [-> ->].
  now rewrite !event_time_period by assumption.
Qed.

Lemma event_time_rolls_over_every_64_s_witness :
  let at_ := fun crank wheel =>
    decode_csc (csc_payload 10 crank 500 wheel 300 50) in
  csc_wheel_time (at_ (1000 + 64000) (2000 + 64000))
  = csc_wheel_time (at_ 1000 2000)
  /\ csc_crank_time (at_ (1000 + 64000) (2000 + 64000))
     = csc_crank_time (at_ 1000 2000).
Proof.
  apply (event_time_rolls_over_every_64_s 10 500 300 50 2000 1000); lia.
Defined.

Lemma event_time_distinct t1 t2 :
  0 <= t1 -> t1 < t2 -> t2 < 2 ^ 25 -> t2 - t1 < 64000 ->
  wrap16 (wrap32 (t1 * 128) / 125) <> wrap16 (wrap32 (t2 * 128) / 125).
Proof.
  intros H0 Hlt Hend Hnear. unfold wrap16.
  rewrite !wrap32_small by (unfold uint32; lia).
  change (2 ^ 16) with 65536.
  pose proof (Z.div_mod (t1 * 128) 125) as E1.
  pose proof (Z.div_mod (t2 * 128) 125) as E2.
  pose proof (Z.mod_pos_bound (t1 * 128) 125) as B1.
  pose proof (Z.mod_pos_bound (t2 * 128) 125) as B2.
  set (q1 := t1 * 128 / 125) in *. set (q2 := t2 * 128 / 125) in *.
  assert (Hdiff : 1 <= q2 - q1 <= 65535) by lia.
  intros Heq.
  pose proof (Z.div_mod q1 65536) as D1.
  pose proof (Z.div_mod q2 65536) as D2.
  rewrite Heq in D1. lia.
Qed.

(** X13: the event time resolves every millisecond.  Before the overflow at
    2^25 ms, two different timestamps less than 64 s apart are never written
    as the same event time. *)
Theorem event_time_separates_milliseconds
    crank_revs wheel_revs power_watts energy t1 t2 :
  0 <= t1 -> t1 < t2 -> t2 < 2 ^ 25 -> t2 - t1 < 64000 ->
  let at_ := fun crank wheel =>
    decode_csc (csc_payload crank_revs crank wheel_revs wheel
                            power_watts energy) in
  csc_wheel_time (at_ t1 t1) <> csc_wheel_time (at_ t2 t2)
  /\ csc_crank_time (at_ t1 t1) <> csc_crank_time (at_ t2 t2).
Proof.
  intros H0 Hlt Hend Hnear at_. subst at_. cbv beta.
  destruct (csc_time_fields crank_revs t1 wheel_revs t1 power_watts energy)
    as [-> ->].
  destruct (csc_time_fields crank_revs t2 wheel_revs t2 power_watts energy)
    as [-> ->].
  split; now apply event_time_distinct.
Qed.

Lemma event_time_separates_milliseconds_witness :
  let at_ := fun crank wheel =>
    decode_csc (csc_payload 10 crank 500 wheel 300 50) in
  csc_wheel_time (at_ 1000 1000) <> csc_wheel_time (at_ 1001 1001)
  /\ csc_crank_time (at_ 1000 1000) <> csc_crank_time (at_ 1001 1001).
Proof.
  apply (event_time_separates_milliseconds 10 500 300 50 1000 1001); lia.
Defined.

(** X14: the encoder keeps no state.  Two updates one after the other make
    four writes, to the same two handles, and the bytes of the second update
    are those of its own snapshot alone; the result of the second update is
    the AND of its own two writes. *)
Theorem updates_are_independent (T : Adafruit_BLEGatt) (this : BLECyclingPower)
    crank_revs1 last_crank_ms1 wheel_revs1 last_wheel_ms1 power_watts1 energy1
    crank_revs2 last_crank_ms2 wheel_revs2 last_wheel_ms2 power_watts2 energy2 :
  let first := update crank_revs1 last_crank_ms1 wheel_revs1 last_wheel_ms1
                      power_watts1 energy1 this in
  let second := update crank_revs2 last_crank_ms2 wheel_revs2 last_wheel_ms2
                       power_watts2 energy2 (snd first) in
  let power_sent := power_payload power_watts2 energy2 in
  let csc_sent := csc_payload crank_revs2 last_crank_ms2 wheel_revs2
                              last_wheel_ms2 power_watts2 energy2 in
  let power_write :=
    setChar (member this cp_measurement_id) power_sent (gatt_ (snd first)) in
  let csc_write :=
    setChar (member this csc_measurement_id) csc_sent (snd power_write) in
  gatt_calls (snd second)
  = gatt_calls (snd first)
    ++ [SetChar (member this cp_measurement_id) power_sent;
        SetChar (member this csc_measurement_id) csc_sent]
  /\ fst second = fst power_write && fst csc_write
  /\ member (snd second) = member this
  /\ logger (snd second) = logger this.
Proof.
  cbv zeta. rewrite (update_run (snd _)), (update_run this).
  cbn [fst snd gatt_ gatt_calls logger member]. repeat split.
Qed.

(** ** The service catalog *)

Lemma skipn_exact {A : Type} (l more : list A) :
  skipn (length l) (l ++ more) = more.
Proof. now rewrite skipn_app, skipn_all, Nat.sub_diag. Qed.

Lemma reports_count ms : forall hs,
  length ms = length hs ->
  length (reports ms hs) = count_occ Z.eq_dec hs 0.
Proof.
  induction ms as [|m ms IH]; intros [|h hs] Hlen; try discriminate;
    [reflexivity|].
  cbn [reports count_occ]. rewrite length_app, IH by (injection Hlen; auto).
  unfold reported. destruct (Z.eq_dec h 0) as [->|Hne].
  - reflexivity.
  - apply Z.eqb_neq in Hne. now rewrite Hne.
Qed.

Lemma reports_in (f : Member -> Z) m ms :
  In m ms -> f m = 0 -> In (failure_line m) (reports ms (map f ms)).
Proof.
  intros Hin Hzero. induction ms as [|m' ms IH]; [destruct Hin|].
  cbn [map reports]. apply in_or_app. destruct Hin as [->|Hin].
  - left. unfold reported. rewrite Hzero. now left.
  - right. now apply IH.
Qed.

(** X15: bring-up never stops at a failure.  Whatever the radio module
    answers, zero handles included, the nine declarations are all made, in
    order; each of the nine members ends as the handle its own declaration
    was answered with; and the number of lines printed is the number of zero
    handles among the nine. *)
Theorem bring_up_never_aborts (T : Adafruit_BLEGatt) (this : BLECyclingPower) :
  let catalog := power_catalog ++ speed_cadence_catalog in
  let handles := fst (answers catalog (gatt_ this)) in
  let this' := snd (declare_services this) in
  gatt_calls this' = gatt_calls this ++ catalog
  /\ gatt_ this' = snd (answers catalog (gatt_ this))
  /\ length handles = 9%nat
  /\ map (member this') slots = handles
  /\ logger this' = logger this ++ reports slots handles
  /\ length (reports slots handles) = count_occ Z.eq_dec handles 0.
Proof.
  intros catalog handles this'.
  destruct (declare_services_never_aborts this) as (Hcalls & Hmembers & Hlog).
  assert (Hlen : length handles = 9%nat) by apply answers_length.
  repeat split; try assumption.
  - subst this'. now rewrite declare_services_run.
  - apply reports_count. now rewrite Hlen.
Qed.

(** X16: eight of the nine failures are printed under their own name.  If a
    member other than [cp_sensor_location_id] is zero after bring-up, a line
    printed during bring-up ends with the name of the UUID constant that
    member was declared with. *)
Theorem other_failures_are_named (T : Adafruit_BLEGatt)
    (this : BLECyclingPower) (m : Member) :
  member (snd (declare_services this)) m = 0 ->
  m <> cp_sensor_location_id ->
  let printed :=
    skipn (length (logger this)) (logger (snd (declare_services this))) in
  In (failure_line m) printed /\ names (failure_line m) m = true.
Proof.
  intros Hzero Hother printed. subst printed.
  destruct (declare_services_never_aborts this) as (_ & Hmembers & Hlog).
  cbv zeta in Hmembers, Hlog. rewrite Hlog, skipn_exact, <- Hmembers.
  split.
  - apply reports_in; [|exact Hzero]. destruct m; cbn [slots In]; tauto.
  - rewrite failure_lines_named. destruct m; try reflexivity.
    now contradiction Hother.
Qed.

Lemma other_failures_are_named_witness :
  let this := fresh ([1; 2; 3; 4; 5; 6; 0; 8; 9], []) 7 in
  let printed :=
    skipn (length (logger this)) (logger (snd (declare_services this))) in
  In (failure_line csc_measurement_id) printed
  /\ names (failure_line csc_measurement_id) csc_measurement_id = true.
Proof.
  apply (other_failures_are_named
           Scripted (fresh ([1; 2; 3; 4; 5; 6; 0; 8; 9], []) 7)
           csc_measurement_id).
  - reflexivity.
  - discriminate.
Defined.

(** X17: each setup function assigns the members of its own profile only.
    [setup_cycling_power_feature] leaves the five Speed/Cadence members as
    they were, [setup_cycling_speed_cadence_feature] the four Power
    members. *)
Theorem setup_functions_keep_to_their_profile (T : Adafruit_BLEGatt)
    (this : BLECyclingPower) :
  let power_members :=
    [cp_service_id; cp_feature_id; cp_measurement_id; cp_sensor_location_id] in
  let speed_cadence_members :=
    [csc_service_id; csc_feature_id; csc_measurement_id;
     csc_sensor_location_id; sc_control_point_id] in
  map (member (snd (setup_cycling_power_feature this))) speed_cadence_members
  = map (member this) speed_cadence_members
  /\ map (member (snd (setup_cycling_speed_cadence_feature this))) power_members
     = map (member this) power_members.
Proof.
  cbv zeta. rewrite setup_cycling_power_feature_run,
    setup_cycling_speed_cadence_feature_run.
  cbn [snd member].
  pose proof (answers_length power_catalog (gatt_ this)) as Hp.
  pose proof (answers_length speed_cadence_catalog (gatt_ this)) as Hc.
  destruct (fst (answers power_catalog (gatt_ this)))
    as [|p1 [|p2 [|p3 [|p4 [|]]]]]; try discriminate Hp.
  destruct (fst (answers speed_cadence_catalog (gatt_ this)))
    as [|c1 [|c2 [|c3 [|c4 [|c5 [|]]]]]]; try discriminate Hc.
  split; reflexivity.
Qed.

(** ** Diagnostics *)

Lemma all_from_spec p fuel : forall z,
  all_from fuel z p = true ->
  forall x, z <= x < z + Z.of_nat fuel -> p x = true.
Proof.
  induction fuel as [|k IH]; intros z Hall x Hx; [lia|].
  cbn [all_from] in Hall. apply andb_true_iff in Hall as [Hz Hrest].
  destruct (Z.eq_dec x z) as [->|Hne]; [exact Hz|].
  apply (IH (z + 1) Hrest). lia.
Qed.

Lemma every_header_whole : all_from (Z.to_nat 65536) 0 header_whole = true.
Proof. vm_compute. reflexivity. Qed.

Lemma chars_whole s :
  forallb (fun c => negb (c =? 0)) s = true -> chars s = s.
Proof.
  induction s as [|c rest IH]; [reflexivity|].
  cbn [forallb chars]. intros Hnz. apply andb_true_iff in Hnz as [Hc Hrest].
  apply negb_true_iff in Hc. rewrite Hc. now rewrite IH.
Qed.

Lemma as_int_uint16 x :
  uint16 x -> as_int x = if x <? 32768 then x else x - 65536.
Proof.
  unfold uint16, as_int. intros Hx.
  change (2 ^ 15) with 32768. change (2 ^ 16) with 65536.
  destruct (x <? 32768) eqn:E.
  - apply Z.ltb_lt in E. rewrite Z.mod_small by lia. lia.
  - apply Z.ltb_ge in E.
    replace (x + 32768) with (x - 32768 + 1 * 65536) by lia.
    rewrite Z.mod_add, Z.mod_small by lia. lia.
Qed.

(** X18: what [logging_callback] writes.  For every 16-bit [line_len] the
    header fits the 32-byte buffer, so nothing is cut: the serial port gets
    "LOG CALLBACK: ", the length in decimal, a line feed, a quote, the
    characters of the line up to its NUL whatever [line_len] says, a quote
    and CR LF.  The length goes through [%d]: from 32768 on it is printed as
    the negative number [line_len - 65536]. *)
Theorem logging_callback_output (A : Type) (callback_data : A)
    linebuf line_len serial :
  uint16 line_len ->
  logging_callback callback_data linebuf line_len serial
  = serial ++ ascii_bytes "LOG CALLBACK: "%string
    ++ decimal (if line_len <? 32768 then line_len else line_len - 65536)
    ++ [10; 34] ++ chars linebuf ++ [34; 13; 10].
Proof.
  intros Hlen.
  pose proof (all_from_spec header_whole _ 0 every_header_whole line_len)
    as Hwhole.
  rewrite Z2Nat.id in Hwhole by lia.
  specialize (Hwhole ltac:(unfold uint16 in Hlen; lia)).
  unfold header_whole in Hwhole.
  apply andb_true_iff in Hwhole as [Hfit Hnz]. apply Nat.leb_le in Hfit.
  unfold logging_callback, Serial_println, Serial_print, snprintf_P.
  fold (log_header line_len). change (32 - 1)%nat with 31%nat.
  rewrite firstn_all2 by exact Hfit. rewrite chars_whole by exact Hnz.
  unfold log_header. rewrite as_int_uint16 by assumption.
  change (ascii_bytes (String.append LF QUOTE)) with [10; 34].
  change (chars (ascii_bytes QUOTE)) with [34].
  rewrite <- !app_assoc. reflexivity.
Qed.

Lemma logging_callback_output_witness :
  logging_callback tt (ascii_bytes "AT+GATTLIST"%string) 40000 []
  = [] ++ ascii_bytes "LOG CALLBACK: "%string
    ++ decimal (if 40000 <? 32768 then 40000 else 40000 - 65536)
    ++ [10; 34] ++ chars (ascii_bytes "AT+GATTLIST"%string) ++ [34; 13; 10].
Proof.
  apply (logging_callback_output unit tt (ascii_bytes "AT+GATTLIST"%string)
                                 40000 []).
  unfold uint16. lia.
Defined.

Lemma substring_length_le m : forall s,
  (String.length (String.substring 0 m s) <= m)%nat.
Proof.
  induction m as [|m IH]; intros s.
  - destruct s; cbn; lia.
  - destruct s as [|c s]; cbn [String.substring String.length]; [lia|].
    specialize (IH s). lia.
Qed.

(** X19: the status report.  Whatever the C library makes of a row,
    [serial_status_text] overruns its 40-byte buffer with none of the three
    texts it copies, prints five texts of at most 39 characters, the two rows
    showing the four Power handles and the first four Speed/Cadence handles,
    and touches neither the module nor the members.  The handle of the
    control point is not shown: the report is the same whatever
    [sc_control_point_id] holds. *)
Theorem status_report (T : Adafruit_BLEGatt)
    (status_row : Z -> Z -> Z -> Z -> String.string)
    (this : BLECyclingPower) (control_point : Z) :
  let row := fun a b c d => String.substring 0 39 (status_row a b c d) in
  let printed :=
    [status_title; status_cp_header;
     row (member this cp_service_id) (member this cp_feature_id)
         (member this cp_measurement_id) (member this cp_sensor_location_id);
     status_csc_header;
     row (member this csc_service_id) (member this csc_feature_id)
         (member this csc_measurement_id)
         (member this csc_sensor_location_id)] in
  serial_status_text status_row this
  = Some {| gatt_ := gatt_ this;
            gatt_calls := gatt_calls this;
            logger := logger this ++ printed;
            member := member this |}
  /\ Forall (fun text => (String.length text <= 39)%nat) printed
  /\ option_map logger
       (serial_status_text status_row
          (snd (assign sc_control_point_id control_point this)))
     = Some (logger this ++ printed).
Proof.
  cbv zeta. unfold serial_status_text.
  change (strcpy_P 40 status_title) with (Some status_title).
  change (strcpy_P 40 status_cp_header) with (Some status_cp_header).
  change (strcpy_P 40 status_csc_header) with (Some status_csc_header).
  unfold logger_print, snprintf_row, assign.
  cbn [snd option_map gatt_ gatt_calls logger member override Member_eqb].
  change (40 - 1)%nat with 39%nat.
  rewrite <- !app_assoc. cbn [app]. repeat split.
  apply Forall_cons; [vm_compute; lia|].
  apply Forall_cons; [vm_compute; lia|].
  apply Forall_cons; [apply substring_length_le|].
  apply Forall_cons; [vm_compute; lia|].
  apply Forall_cons; [apply substring_length_le|].
  apply Forall_nil.
Qed.

(** ** Bring-up *)

Section InitializeFacts.
Context `{Adafruit_BLE}.
Local Open Scope string_scope.

Lemma ble_run c (board : Board) :
  ble_ c board
  = (fst (ble_command c (gatt_ (object board))),
     {| object := {| gatt_ := snd (ble_command c (gatt_ (object board)));
                     gatt_calls := gatt_calls (object board);
                     logger := logger (object board);
                     member := member (object board) |};
        wire := wire board ++ [OnBle c] |}).
Proof.
  unfold ble_. now destruct (ble_command c (gatt_ (object board))).
Qed.

Lemma on_object_run {A : Type} (m : M A) (board : Board) a this' more :
  m (object board) = (a, this') ->
  gatt_calls this' = gatt_calls (object board) ++ more ->
  on_object m board
  = (a, {| object := this'; wire := wire board ++ map OnGatt more |}).
Proof.
  intros Hrun Hcalls. unfold on_object. rewrite Hrun, Hcalls, skipn_exact.
  reflexivity.
Qed.

Lemma set_initial_run m value (board : Board) :
  let this := object board in
  let write := setChar (member this m) value (gatt_ this) in
  set_initial m value board
  = (fst write,
     {| object := {| gatt_ := snd write;
                     gatt_calls :=
                       gatt_calls this ++ [SetChar (member this m) value];
                     logger := logger this;
                     member := member this |};
        wire := wire board ++ [OnGatt (SetChar (member this m) value)] |}).
Proof.
  cbv zeta. unfold set_initial.
  apply (on_object_run _ board _ _ [SetChar (member (object board) m) value]);
    [|reflexivity].
  unfold bind, read, gatt_setChar, gatt_call.
  now destruct (setChar (member (object board) m) value (gatt_ (object board))).
Qed.

Variable debug : bool.
Variable SENSOR_LOCATION_LEFT_CRANK : list Z.
Variables cpf_crank cpf_wheel cpf_energy cscf_crank cscf_wheel : Z.

Lemma initialize_state (board : Board) :
  let catalog := power_catalog ++ speed_cadence_catalog in
  let module :=
    after_commands [Reset; Echo false; AtCommand "AT+GATTCLEAR";
                    SendCommandCheckOK "AT+GAPDEVNAME=PeloMon"]
                   (gatt_ (object board)) in
  let handles := fst (answers catalog module) in
  let values :=
    [SetChar (nth 3 handles 0) SENSOR_LOCATION_LEFT_CRANK;
     SetChar (nth 7 handles 0) SENSOR_LOCATION_LEFT_CRANK;
     SetChar (nth 1 handles 0)
             (to_le 4 (wrap32 (Z.lor (Z.lor cpf_crank cpf_wheel)
                                     cpf_energy)));
     SetChar (nth 5 handles 0)
             (to_le 2 (wrap16 (Z.lor cscf_crank cscf_wheel)));
     SetChar (nth 8 handles 0) [0]] in
  exists g,
    initialize debug SENSOR_LOCATION_LEFT_CRANK
               cpf_crank cpf_wheel cpf_energy cscf_crank cscf_wheel board
    = (tt,
       {| object :=
            {| gatt_ := g;
               gatt_calls := gatt_calls (object board) ++ catalog ++ values;
               logger :=
                 logger (object board) ++ reports slots handles
                 ++ (if debug then [checking_gatts] else []);
               member := assigned slots handles (member (object board)) |};
          wire :=
            wire board
            ++ [OnBle Reset; OnBle (Echo false);
                OnBle (AtCommand "AT+GATTCLEAR");
                OnBle (SendCommandCheckOK "AT+GAPDEVNAME=PeloMon")]
            ++ map OnGatt catalog
            ++ [OnBle (SendCommandCheckOK GAPSETADVDATA); OnBle Reset]
            ++ (if debug
                then [OnBle (SendCommandCheckOK "AT+GATTLIST")] else [])
            ++ map OnGatt values |}).
Proof.
  intros catalog module handles values. subst values handles catalog module.
  unfold after_commands. cbn [fold_left].
  rewrite answers_app. cbn [fst].
  unfold initialize.
  do 4 (unfold bindB at 1; rewrite ble_run;
        cbn [object wire gatt_ gatt_calls logger member fst snd]).
  set (module := snd (ble_command (SendCommandCheckOK "AT+GAPDEVNAME=PeloMon")
                                  _)) in *.
  pose proof (answers_length power_catalog module) as Hp.
  pose proof (answers_length speed_cadence_catalog
                (snd (answers power_catalog module))) as Hc.
  unfold bindB at 1.
  erewrite on_object_run
    by (try apply setup_cycling_power_feature_run; reflexivity).
  cbn [object wire gatt_ gatt_calls logger member fst snd].
  unfold bindB at 1.
  erewrite on_object_run
    by (try apply setup_cycling_speed_cadence_feature_run; reflexivity).
  cbn [object wire gatt_ gatt_calls logger member fst snd].
  destruct (fst (answers power_catalog module))
    as [|p1 [|p2 [|p3 [|p4 [|]]]]]; try discriminate Hp.
  destruct (fst (answers speed_cadence_catalog
                   (snd (answers power_catalog module))))
    as [|c1 [|c2 [|c3 [|c4 [|c5 [|]]]]]]; try discriminate Hc.
  do 2 (unfold bindB at 1; rewrite ble_run;
        cbn [object wire gatt_ gatt_calls logger member fst snd]).
  unfold bindB at 1.
  destruct debug.
  - unfold bindB at 1.
    erewrite on_object_run
      with (more := []) by (reflexivity || (cbn; now rewrite app_nil_r)).
    rewrite ble_run.
    cbn [object wire gatt_ gatt_calls logger member fst snd logger_print].
    do 5 (unfold bindB at 1; rewrite set_initial_run;
          cbn [object wire gatt_ gatt_calls logger member fst snd
               assigned override Member_eqb]).
    unfold retB. cbn [app nth slots reports assigned map firstn].
    eexists. f_equal. f_equal.
    + f_equal; rewrite <- ?app_assoc; cbn [app]; rewrite ?app_nil_r;
        reflexivity.
    + rewrite <- ?app_assoc; cbn [app]; reflexivity.
  - unfold retB at 1.
    do 5 (unfold bindB at 1; rewrite set_initial_run;
          cbn [object wire gatt_ gatt_calls logger member fst snd
               assigned override Member_eqb]).
    unfold retB. cbn [app nth slots reports assigned map firstn].
    eexists. f_equal. f_equal.
    + f_equal; rewrite <- ?app_assoc; cbn [app]; rewrite ?app_nil_r;
        reflexivity.
    + rewrite <- ?app_assoc; cbn [app]; reflexivity.
Qed.

Lemma assigned_slots handles members :
  length handles = 9%nat ->
  map (assigned slots handles members) slots = handles.
Proof.
  intros Hlen.
  do 9 (destruct handles as [|? handles]; [discriminate Hlen|]).
  destruct handles; [reflexivity | discriminate Hlen].
Qed.

(** X20: [initialize] runs to its end, in one order.  Whatever the module
    answers to any call: reset, echo off, GATT clear and device name come
    first; then the nine declarations; then the advertising data and the
    second reset, and with debug logging the GATT list; last the five
    initial values, each written to the handle its declaration was answered
    with, a zero handle included.  The members end as the handles answered
    and one line is printed per zero handle. *)
Theorem initialize_runs_to_the_end (board : Board) :
  let catalog := power_catalog ++ speed_cadence_catalog in
  let module :=
    after_commands [Reset; Echo false; AtCommand "AT+GATTCLEAR";
                    SendCommandCheckOK "AT+GAPDEVNAME=PeloMon"]
                   (gatt_ (object board)) in
  let handles := fst (answers catalog module) in
  let board' :=
    snd (initialize debug SENSOR_LOCATION_LEFT_CRANK
                    cpf_crank cpf_wheel cpf_energy cscf_crank cscf_wheel
                    board) in
  wire board'
  = wire board
    ++ [OnBle Reset; OnBle (Echo false); OnBle (AtCommand "AT+GATTCLEAR");
        OnBle (SendCommandCheckOK "AT+GAPDEVNAME=PeloMon")]
    ++ map OnGatt catalog
    ++ [OnBle (SendCommandCheckOK GAPSETADVDATA); OnBle Reset]
    ++ (if debug then [OnBle (SendCommandCheckOK "AT+GATTLIST")] else [])
    ++ map OnGatt
         [SetChar (nth 3 handles 0) SENSOR_LOCATION_LEFT_CRANK;
          SetChar (nth 7 handles 0) SENSOR_LOCATION_LEFT_CRANK;
          SetChar (nth 1 handles 0)
                  (to_le 4 (wrap32 (Z.lor (Z.lor cpf_crank cpf_wheel)
                                          cpf_energy)));
          SetChar (nth 5 handles 0)
                  (to_le 2 (wrap16 (Z.lor cscf_crank cscf_wheel)));
          SetChar (nth 8 handles 0) [0]]
  /\ map (member (object board')) slots = handles
  /\ logger (object board')
     = logger (object board) ++ reports slots handles
       ++ (if debug then [checking_gatts] else []).
Proof.
  intros catalog module handles board'. subst board'.
  destruct (initialize_state board) as [g Hrun]. cbv zeta in Hrun.
  rewrite Hrun. cbn [snd object wire logger member]. repeat split.
  apply assigned_slots, answers_length.
Qed.

(** X21: the initial values go where they belong and have a declared
    length.  After the declarations [initialize] makes five writes, to the
    handles held by [cp_sensor_location_id], [csc_sensor_location_id],
    [cp_feature_id], [csc_feature_id] and [sc_control_point_id]; the Power
    feature is written as four bytes, the Speed/Cadence feature as two and
    the control point as the single byte zero, each a length within the
    bounds its characteristic was declared with. *)
Theorem initial_values_fit (board : Board) :
  let catalog := power_catalog ++ speed_cadence_catalog in
  let board' :=
    snd (initialize debug SENSOR_LOCATION_LEFT_CRANK
                    cpf_crank cpf_wheel cpf_energy cscf_crank cscf_wheel
                    board) in
  let power_feature :=
    to_le 4 (wrap32 (Z.lor (Z.lor cpf_crank cpf_wheel) cpf_energy)) in
  let csc_feature := to_le 2 (wrap16 (Z.lor cscf_crank cscf_wheel)) in
  let held := member (object board') in
  gatt_calls (object board')
  = gatt_calls (object board) ++ catalog
    ++ [SetChar (held cp_sensor_location_id) SENSOR_LOCATION_LEFT_CRANK;
        SetChar (held csc_sensor_location_id) SENSOR_LOCATION_LEFT_CRANK;
        SetChar (held cp_feature_id) power_feature;
        SetChar (held csc_feature_id) csc_feature;
        SetChar (held sc_control_point_id) [0]]
  /\ fits catalog CYCLING_POWER_FEATURE_CHAR_UUID power_feature = true
  /\ fits catalog CSC_FEATURE_CHAR_UUID csc_feature = true
  /\ fits catalog SC_CONTROL_POINT_CHAR_UUID [0] = true.
Proof.
  intros catalog board' power_feature csc_feature held.
  subst held board'.
  destruct (initialize_state board) as [g Hrun]. cbv zeta in Hrun.
  rewrite Hrun. cbn [snd object gatt_calls member].
  set (handles := fst (answers (power_catalog ++ speed_cadence_catalog) _)).
  assert (Hlen : length handles = 9%nat) by apply answers_length.
  split; [|repeat split].
  do 9 (destruct handles as [|? handles]; [discriminate Hlen|]).
  destruct handles; [reflexivity | discriminate Hlen].
Qed.

(** X22: the handles reach [update].  After [initialize], an update writes
    the Power measurement to the handle answered to the third declaration
    and the Speed/Cadence measurement to the handle answered to the
    seventh, zero or not. *)
Theorem update_uses_declared_handles (board : Board)
    crank_revs last_crank_ms wheel_revs last_wheel_ms power_watts energy :
  let catalog := power_catalog ++ speed_cadence_catalog in
  let module :=
    after_commands [Reset; Echo false; AtCommand "AT+GATTCLEAR";
                    SendCommandCheckOK "AT+GAPDEVNAME=PeloMon"]
                   (gatt_ (object board)) in
  let handles := fst (answers catalog module) in
  let this :=
    object (snd (initialize debug SENSOR_LOCATION_LEFT_CRANK
                            cpf_crank cpf_wheel cpf_energy
                            cscf_crank cscf_wheel board)) in
  nth_error catalog 2
  = Some (AddCharacteristic CYCLING_POWER_MEASUREMENT_CHAR_UUID
            (Z.lor GATT_CHARS_PROPERTIES_READ GATT_CHARS_PROPERTIES_NOTIFY)
            4 8)
  /\ nth_error catalog 6
     = Some (AddCharacteristic CSC_MEASUREMENT_CHAR_UUID
               GATT_CHARS_PROPERTIES_NOTIFY 11 11)
  /\ gatt_calls (snd (update crank_revs last_crank_ms wheel_revs last_wheel_ms
                             power_watts energy this))
     = gatt_calls this
       ++ [SetChar (nth 2 handles 0) (power_payload power_watts energy);
           SetChar (nth 6 handles 0)
                   (csc_payload crank_revs last_crank_ms wheel_revs
                                last_wheel_ms power_watts energy)].
Proof.
  intros catalog module handles this. subst this.
  destruct (initialize_state board) as [g Hrun]. cbv zeta in Hrun.
  rewrite Hrun. cbn [snd object]. rewrite update_run.
  cbn [snd gatt_calls member]. fold catalog. fold module. fold handles.
  assert (Hlen : length handles = 9%nat) by apply answers_length.
  split; [reflexivity|]. split; [reflexivity|].
  do 9 (destruct handles as [|? handles]; [discriminate Hlen|]).
  destruct handles; [reflexivity | discriminate Hlen].
Qed.

End InitializeFacts.

(** On the scripted module, with debug logging and the fourth declaration
    failing: the Power sensor location is written through the handle 0. *)
Example initialize_on_scripted_module :
  let board :=
    snd (@initialize Scripted ScriptedBle true [5] 8 4 2048 2 1
           (fresh_board ([1; 2; 3; 0; 5; 6; 7; 8; 9], []) 0)) in
  skipn 15 (wire board)
  = [OnBle (SendCommandCheckOK "AT+GATTLIST"%string);
     OnGatt (SetChar 0 [5]); OnGatt (SetChar 8 [5]);
     OnGatt (SetChar 2 [12; 8; 0; 0]); OnGatt (SetChar 6 [3; 0]);
     OnGatt (SetChar 9 [0])]
  /\ length (wire board) = 21%nat.
Proof. split; vm_compute; reflexivity. Qed.
